(** * The chat gateway of server.js and of its long-running variant

    A shallow embedding of the two Express applications of the repository:
    [src/server.js], which opens a connection pool for each request and
    closes it in a [finally] block, and [src/unnamed/part_000], which
    connects once when the process starts and shares that pool.

    The handlers are written in a state-and-exception monad: the state holds
    the store, the [pool] variable, the two mutable locals of the chat
    handler and the trace of what the handler did; the outcome is a returned
    value, a thrown error, or a promise that never settles.

    What Node, axios, mssql and the language itself provide is not part of
    the repository.  It is taken as a parameter ([JsNumber], [Platform],
    [Env]); every general theorem holds for all of them, and the concrete
    platform of module [Concrete] is used to run the handlers on explicit
    inputs. *)

From Stdlib Require Import List String Ascii Bool Arith ZArith Lia DecimalString.
Import ListNotations.
Local Open Scope string_scope.

Set Implicit Arguments.
Local Set Warnings "-register-all".

(** ** JavaScript values *)

(** Numbers are doubles in JavaScript.  The handlers only test them for
    truthiness and convert them to text, and JSON.stringify asks whether
    they are finite, so these three operations are all that is asked of
    them. *)
Class JsNumber : Type := {
  number : Type;
  number_truthy : number -> bool;        (* ToBoolean: false on 0, -0, NaN *)
  number_toString : number -> string;    (* Number::toString, radix 10 *)
  number_isFinite : number -> bool       (* false on NaN, Infinity, -Infinity *)
}.

Section Values.
Context {JN : JsNumber}.

(** The values that JSON.parse produces, the recordsets of the store driver
    whose columns hold null, booleans, numbers and strings, and
    [undefined]. [VObj] lists the own properties of a plain object in
    enumeration order, each key once. *)
Inductive value : Type :=
  | VUndefined
  | VNull
  | VBool (b : bool)
  | VNum (n : number)
  | VStr (s : string)
  | VArr (items : list value)
  | VObj (props : list (string * value)).

(** Thrown values. [err_message] is what [err.message] reads. *)
Inductive ErrorName : Type :=
  | SyntaxError | TypeError | ConnectionError | RequestError | AxiosError.

Record Error : Type := mkError { err_name : ErrorName; err_message : string }.

(** ToBoolean *)
Definition truthy (v : value) : bool :=
  match v with
  | VUndefined | VNull => false
  | VBool b => b
  | VNum n => number_truthy n
  | VStr s => negb (String.eqb s EmptyString)
  | VArr _ | VObj _ => true
  end.

Fixpoint lookup (k : string) (props : list (string * value)) : value :=
  match props with
  | [] => VUndefined
  | (k', v) :: rest => if String.eqb k k' then v else lookup k rest
  end.

(** [o.k] for a key [k] that no built-in prototype defines (the handlers
    read needsQuery, query, response, TABLE_NAME, content and text): a
    TypeError on null and undefined, the own property on an object,
    undefined on everything else. *)
Definition get (o : value) (k : string) : Error + value :=
  match o with
  | VUndefined =>
      inl (mkError TypeError ("Cannot read properties of undefined (reading '" ++ k ++ "')"))
  | VNull =>
      inl (mkError TypeError ("Cannot read properties of null (reading '" ++ k ++ "')"))
  | VObj props => inr (lookup k props)
  | _ => inr VUndefined
  end.

(** [o[0]] *)
Definition get0 (o : value) : Error + value :=
  match o with
  | VUndefined =>
      inl (mkError TypeError "Cannot read properties of undefined (reading '0')")
  | VNull =>
      inl (mkError TypeError "Cannot read properties of null (reading '0')")
  | VArr items => inr (hd VUndefined items)
  | VStr (String c _) => inr (VStr (String c EmptyString))
  | VObj props => inr (lookup "0" props)
  | _ => inr VUndefined
  end.

Fixpoint join (sep : string) (parts : list string) : string :=
  match parts with
  | [] => EmptyString
  | [p] => p
  | p :: rest => p ++ sep ++ join sep rest
  end.

(** What ToString throws on an object that has no method to convert it. *)
Definition cannot_convert : Error :=
  mkError TypeError "Cannot convert object to primitive value".

(** Whether [k] is an own property. *)
Definition has_own (k : string) (props : list (string * value)) : bool :=
  existsb (fun kv => String.eqb (fst kv) k) props.

(** ToString, as a template literal, JSON.parse and Array.prototype.join
    apply it. An array is joined with commas; inside an array, null and
    undefined become the empty string. A plain object is converted by the
    [toString] it inherits, unless it has an own property of that name:
    the values here hold no function, so the own property hides the
    inherited method, [valueOf] gives the object back, and the conversion
    throws a TypeError. *)
Fixpoint toString (v : value) : Error + string :=
  match v with
  | VUndefined => inr "undefined"
  | VNull => inr "null"
  | VBool true => inr "true"
  | VBool false => inr "false"
  | VNum n => inr (number_toString n)
  | VStr s => inr s
  | VArr items =>
      match (fix texts (xs : list value) : Error + list string :=
               match xs with
               | [] => inr []
               | x :: rest =>
                   match (match x with
                          | VUndefined | VNull => inr EmptyString
                          | _ => toString x
                          end) with
                   | inl e => inl e
                   | inr t =>
                       match texts rest with
                       | inl e => inl e
                       | inr ts => inr (t :: ts)
                       end
                   end
               end) items with
      | inl e => inl e
      | inr ts => inr (join "," ts)
      end
  | VObj props =>
      if has_own "toString" props then inl cannot_convert else inr "[object Object]"
  end.

(** The text of one element in Array.prototype.join. *)
Definition join_element (v : value) : Error + string :=
  match v with
  | VUndefined | VNull => inr EmptyString
  | _ => toString v
  end.

Fixpoint element_texts (items : list value) : Error + list string :=
  match items with
  | [] => inr []
  | x :: rest =>
      match join_element x with
      | inl e => inl e
      | inr t =>
          match element_texts rest with
          | inl e => inl e
          | inr ts => inr (t :: ts)
          end
      end
  end.

(** items.join(sep) *)
Definition Array_join (sep : string) (items : list value) : Error + string :=
  match element_texts items with
  | inl e => inl e
  | inr ts => inr (join sep ts)
  end.

(** ** JSON.stringify(v, null, 2) *)

Definition nl : string := String (ascii_of_nat 10) EmptyString.
Definition dquote : string := String (ascii_of_nat 34) EmptyString.

Definition hex_digit (n : nat) : ascii :=
  if (n <? 10)%nat then ascii_of_nat (48 + n) else ascii_of_nat (87 + n).

(** QuoteJSONString on one character: the two-character escapes, \u00XX for
    the other control characters, the character itself otherwise. *)
Definition quote_char (c : ascii) : string :=
  let n := nat_of_ascii c in
  if (n =? 34)%nat then String (ascii_of_nat 92) dquote
  else if (n =? 92)%nat then String (ascii_of_nat 92) (String (ascii_of_nat 92) EmptyString)
  else if (n =? 8)%nat then String (ascii_of_nat 92) "b"
  else if (n =? 9)%nat then String (ascii_of_nat 92) "t"
  else if (n =? 10)%nat then String (ascii_of_nat 92) "n"
  else if (n =? 12)%nat then String (ascii_of_nat 92) "f"
  else if (n =? 13)%nat then String (ascii_of_nat 92) "r"
  else if (n <? 32)%nat then
    String (ascii_of_nat 92)
      ("u00" ++ String (hex_digit (n / 16)) (String (hex_digit (n mod 16)) EmptyString))
  else String c EmptyString.

Fixpoint quote_body (s : string) : string :=
  match s with
  | EmptyString => EmptyString
  | String c rest => quote_char c ++ quote_body rest
  end.

Definition quote (s : string) : string := dquote ++ quote_body s ++ dquote.

(** [None] is the [undefined] that JSON.stringify returns for [undefined].
    An undefined array element is written null; an undefined property is
    left out; a number that is not finite is written null. [indent] is the
    indentation of the enclosing line. *)
Fixpoint stringify (indent : string) (v : value) : option string :=
  match v with
  | VUndefined => None
  | VNull => Some "null"
  | VBool true => Some "true"
  | VBool false => Some "false"
  | VNum n => Some (if number_isFinite n then number_toString n else "null")
  | VStr s => Some (quote s)
  | VArr items =>
      let inner := indent ++ "  " in
      match map (fun x => match stringify inner x with
                          | Some t => t
                          | None => "null"
                          end) items with
      | [] => Some "[]"
      | parts =>
          Some ("[" ++ nl ++ inner ++ join ("," ++ nl ++ inner) parts
                    ++ nl ++ indent ++ "]")
      end
  | VObj props =>
      let inner := indent ++ "  " in
      match flat_map (fun kv => match stringify inner (snd kv) with
                                | Some t => [quote (fst kv) ++ ": " ++ t]
                                | None => []
                                end) props with
      | [] => Some "{}"
      | parts =>
          Some ("{" ++ nl ++ inner ++ join ("," ++ nl ++ inner) parts
                    ++ nl ++ indent ++ "}")
      end
  end.

(** The value of the expression [JSON.stringify(v, null, 2)]. *)
Definition JSON_stringify2 (v : value) : value :=
  match stringify EmptyString v with
  | Some t => VStr t
  | None => VUndefined
  end.

End Values.

(** ** What the platform provides *)

(** Built-ins of the language and the store behind the mssql driver.
    [JSON_parse] is JSON.parse on a text: the parsed value, or the
    SyntaxError it throws. [run_sql] is [pool.request().query(command)] on
    an open pool: the [recordset] of the result or the error the driver
    rejects with, and the store afterwards. *)
Class Platform {JN : JsNumber} : Type := {
  JSON_parse : string -> Error + value;
  String_trim : string -> string;
  String_toUpperCase : string -> string;
  Store : Type;
  run_sql : Store -> value -> (Error + value) * Store
}.

(** ** Effects *)

(** How an asynchronous computation ends. *)
Inductive Outcome (A : Type) : Type :=
  | Returned (a : A)
  | Thrown (e : Error)
  | Pending.                                 (* an awaited promise never settles *)
Arguments Thrown {A} e.
Arguments Pending {A}.

Section Effects.
Context {JN : JsNumber} {P : Platform}.

(** The body that axios.post sends and its request configuration. axios
    applies no time limit unless [timeout] is given. *)
Record ModelRequest : Type := {
  model : string;
  max_tokens : Z;
  messages : list value
}.

Record AxiosConfig : Type := {
  headers : list (string * value);
  timeout : option nat
}.

(** How the model service behaves on one call: it answers with a 2xx
    response whose body is [data], it fails (no connection, or a status
    outside 2xx), or it never answers. *)
Inductive Upstream : Type :=
  | Answers (data : value)
  | Refuses (e : Error)
  | Silent.

(** What one request finds around it. An environment variable is a string
    or is not set. *)
Record Env : Type := {
  CLAUDE_API_KEY : option string;            (* process.env.CLAUDE_API_KEY *)
  connect_outcome : option Error;            (* sql.connect(sqlConfig); None: it resolves *)
  close_outcome : option Error;              (* pool.close(); None: it resolves *)
  upstream : ModelRequest -> Upstream;
  now : string                               (* new Date().toISOString() *)
}.

(** What a handler does that can be seen from outside, in order. *)
Inductive Event : Type :=
  | Connect                                  (* sql.connect(sqlConfig) *)
  | Query (command : value)                  (* pool.request().query(command) *)
  | Post (url : string) (body : ModelRequest) (config : AxiosConfig)
  | Log (text : string)                      (* console.log, console.error *)
  | Respond (status : nat) (body : value)    (* res.status(status).json(body) *)
  | Close.                                   (* pool.close() *)

(** [pool] is the variable of that name: local to the handler in server.js,
    global in the long-running variant. [claudeMessage] and [queryResult]
    are the two locals that the chat handler assigns more than once. *)
Record State : Type := mkState {
  db : Store;
  pool : bool;
  claudeMessage : value;
  queryResult : value;
  trace : list Event
}.

Definition M (A : Type) : Type := State -> Outcome A * State.

Definition ret {A} (a : A) : M A := fun st => (Returned a, st).

Definition bind {A B} (m : M A) (k : A -> M B) : M B :=
  fun st =>
    match m st with
    | (Returned a, st') => k a st'
    | (Thrown e, st') => (Thrown e, st')
    | (Pending, st') => (Pending, st')
    end.

Definition throw {A} (e : Error) : M A := fun st => (Thrown e, st).

Definition never {A} : M A := fun st => (Pending, st).

Definition lift {A} (r : Error + A) : M A :=
  match r with
  | inl e => throw e
  | inr a => ret a
  end.

(** try { body } catch (e) { handler e } *)
Definition try_catch {A} (body : M A) (handler : Error -> M A) : M A :=
  fun st =>
    match body st with
    | (Thrown e, st') => handler e st'
    | r => r
    end.

(** try { body } finally { cleanup }: the cleanup runs however the body
    ends; an error thrown by the cleanup replaces the body's outcome. *)
Definition try_finally {A} (body : M A) (cleanup : M unit) : M A :=
  fun st =>
    match body st with
    | (Pending, st') => (Pending, st')
    | (r, st') =>
        match cleanup st' with
        | (Returned _, st'') => (r, st'')
        | (Thrown e, st'') => (Thrown e, st'')
        | (Pending, st'') => (Pending, st'')
        end
    end.

Definition emit (e : Event) : M unit :=
  fun st => (Returned tt,
             mkState (db st) (pool st) (claudeMessage st) (queryResult st)
                     (trace st ++ [e])).

Definition set_pool (b : bool) : M unit :=
  fun st => (Returned tt,
             mkState (db st) b (claudeMessage st) (queryResult st) (trace st)).

Definition set_claudeMessage (v : value) : M unit :=
  fun st => (Returned tt,
             mkState (db st) (pool st) v (queryResult st) (trace st)).

Definition set_queryResult (v : value) : M unit :=
  fun st => (Returned tt,
             mkState (db st) (pool st) (claudeMessage st) v (trace st)).

Definition read {A} (f : State -> A) : M A := fun st => (Returned (f st), st).

(** res.status(status).json(body) *)
Definition respond (status : nat) (body : value) : M unit :=
  emit (Respond status body).

End Effects.

Declare Scope js_scope.
Delimit Scope js_scope with js.
Notation "x <- m ;; k" := (bind m (fun x => k))
  (at level 61, m at next level, right associativity) : js_scope.
Notation "m ;; k" := (bind m (fun _ => k))
  (at level 61, right associativity) : js_scope.
Local Open Scope js_scope.

(** ** The handlers *)

Section Gateway.
Context {JN : JsNumber} {P : Platform}.
Variable env : Env.

(** sql.connect(sqlConfig) *)
Definition sql_connect : M unit :=
  emit Connect ;;
  match connect_outcome env with
  | None => ret tt
  | Some e => throw e
  end.

(** pool.close() *)
Definition pool_close : M unit :=
  emit Close ;;
  match close_outcome env with
  | None => ret tt
  | Some e => throw e
  end.

(** [(await pool.request().query(command)).recordset]. When [pool] is
    undefined, [pool.request] throws before anything is sent. *)
Definition pool_query (command : value) : M value :=
  fun st =>
    if pool st then
      let (r, db') := run_sql (db st) command in
      let st' := mkState db' (pool st) (claudeMessage st) (queryResult st)
                         (trace st ++ [Query command]) in
      match r with
      | inl e => (Thrown e, st')
      | inr recordset => (Returned recordset, st')
      end
    else
      (Thrown (mkError TypeError
                 "Cannot read properties of undefined (reading 'request')"), st).

(** axios.post(url, body, config). Without [timeout] the promise of a call
    that is never answered never settles. *)
Definition axios_post (url : string) (body : ModelRequest) (config : AxiosConfig)
  : M value :=
  emit (Post url body config) ;;
  match upstream env body with
  | Answers data => ret data
  | Refuses e => throw e
  | Silent =>
      match timeout config with
      | Some _ => throw (mkError AxiosError "timeout exceeded")
      | None => never
      end
  end.

(** *** The chat pipeline

    Lines 112-183 of server.js and lines 89-160 of the long-running variant
    are the same text. *)

Definition CLAUDE_API_URL : string := "https://api.anthropic.com/v1/messages".

Definition tables_sql : string :=
  "SELECT TABLE_NAME FROM INFORMATION_SCHEMA.TABLES WHERE TABLE_TYPE = 'BASE TABLE'".

Fixpoint table_names (rows : list value) : Error + list value :=
  match rows with
  | [] => inr []
  | row :: rest =>
      match get row "TABLE_NAME" with
      | inl e => inl e
      | inr n =>
          match table_names rest with
          | inl e => inl e
          | inr ns => inr (n :: ns)
          end
      end
  end.

(** recordset.map(row => row.TABLE_NAME) *)
Definition map_TABLE_NAME (recordset : value) : Error + list value :=
  match recordset with
  | VArr rows => table_names rows
  | VUndefined =>
      inl (mkError TypeError "Cannot read properties of undefined (reading 'map')")
  | VNull =>
      inl (mkError TypeError "Cannot read properties of null (reading 'map')")
  | _ => inl (mkError TypeError "tablesResult.recordset.map is not a function")
  end.

(** The template literal of the prompt; [availableTables.join(', ')] is
    the one expression in it. *)
Definition systemPrompt (availableTables : list value) : Error + string :=
  match Array_join ", " availableTables with
  | inl e => inl e
  | inr joined => inr (
  "You are a helpful assistant that can query a SQL Server database. " ++ nl ++
  "    Available tables: " ++ joined ++ nl ++
  "    " ++ nl ++
  "    When a user asks a question that requires database information:" ++ nl ++
  "    1. Generate the appropriate SQL query" ++ nl ++
  "    2. Return the query in a structured format so it can be executed" ++ nl ++
  "    3. Provide explanations for your responses" ++ nl ++
  "    " ++ nl ++
  "    Important: Only generate SELECT queries. Do not generate INSERT, UPDATE, DELETE, or DDL queries." ++ nl ++
  "    " ++ nl ++
  "    Format your response as JSON with these fields:" ++ nl ++
  "    - needsQuery: boolean (true if SQL query is needed)" ++ nl ++
  "    - query: string (the SQL query if needed)" ++ nl ++
  "    - explanation: string (explanation of what you're doing)" ++ nl ++
  "    - response: string (your response to the user)")
  end.

(** [...conversationHistory] inside an array literal *)
Definition spread (v : value) : Error + list value :=
  match v with
  | VArr items => inr items
  | VStr s => inr (map (fun c => VStr (String c EmptyString)) (list_ascii_of_string s))
  | _ => inl (mkError TypeError "conversationHistory is not iterable")
  end.

(** The request that the chat handler sends to the model service, given
    the text of the prompt. *)
Definition model_request (prompt : string) (history : list value) (message : value)
  : ModelRequest :=
  {| model := "claude-3-sonnet-20240229";
     max_tokens := 1000;
     messages :=
       [VObj [("role", VStr "system"); ("content", VStr prompt)]]
       ++ history
       ++ [VObj [("role", VStr "user"); ("content", message)]] |}.

(** The third argument of axios.post: three headers and nothing else. A
    variable that is not set reads undefined. *)
Definition request_config : AxiosConfig :=
  {| headers :=
       [("Authorization",
         VStr ("Bearer " ++ match CLAUDE_API_KEY env with
                            | Some key => key
                            | None => "undefined"
                            end));
        ("Content-Type", VStr "application/json");
        ("x-api-key", match CLAUDE_API_KEY env with
                      | Some key => VStr key
                      | None => VUndefined
                      end)];
     timeout := None |}.

(** claudeResponse.data.content[0].text *)
Definition content0_text (data : value) : Error + value :=
  match get data "content" with
  | inl e => inl e
  | inr content =>
      match get0 content with
      | inl e => inl e
      | inr first => get first "text"
      end
  end.

(** JSON.parse(v): the argument is converted to text, then parsed. *)
Definition JSON_parse_value (v : value) : Error + value :=
  match toString v with
  | inl e => inl e
  | inr written => JSON_parse written
  end.

(** The template literal of the branch that ran a query: each of the two
    expressions is converted to text, the first before the second. *)
Definition with_results (response result : value) : Error + string :=
  match toString response with
  | inl e => inl e
  | inr head =>
      match toString (JSON_stringify2 result) with
      | inl e => inl e
      | inr rendered => inr (head ++ nl ++ nl ++ "Query Results:" ++ nl ++ rendered)
      end
  end.

(** The inner try statement: parse the text of the model, run the query it
    asks for, and on any error thrown in between keep [claudeMessage] as it
    is. *)
Definition interpret_and_run : M unit :=
  try_catch
    (text <- read claudeMessage ;;
     parsedResponse <- lift (JSON_parse_value text) ;;
     needsQuery <- lift (get parsedResponse "needsQuery") ;;
     wanted <- (if truthy needsQuery
                then lift (get parsedResponse "query")
                else ret needsQuery) ;;
     if truthy wanted then
       query <- lift (get parsedResponse "query") ;;
       recordset <- pool_query query ;;
       set_queryResult recordset ;;
       response <- lift (get parsedResponse "response") ;;
       result <- read queryResult ;;
       composed <- lift (with_results response result) ;;
       set_claudeMessage (VStr composed)
     else
       response <- lift (get parsedResponse "response") ;;
       set_claudeMessage response)
    (fun parseError =>
       emit (Log "Could not parse Claude response as JSON, using raw response")).

(** From the catalog lookup to the text of the model's first content
    block. *)
Definition ask_model (message conversationHistory : value) : M value :=
  tablesResult <- pool_query (VStr tables_sql) ;;
  availableTables <- lift (map_TABLE_NAME tablesResult) ;;
  prompt <- lift (systemPrompt availableTables) ;;
  history <- lift (spread conversationHistory) ;;
  data <- axios_post CLAUDE_API_URL
            (model_request prompt history message) request_config ;;
  lift (content0_text data).

Definition chat_pipeline (message conversationHistory : value) : M unit :=
  text <- ask_model message conversationHistory ;;
  set_claudeMessage text ;;
  set_queryResult VNull ;;
  interpret_and_run ;;
  response <- read claudeMessage ;;
  result <- read queryResult ;;
  respond 200 (VObj [("response", response);
                     ("queryResult", result);
                     ("timestamp", VStr (now env))]).

(** *** The three steps inside the inner try statement

    The source has no function for them; they are named here so that the
    statements about intents can be written, and
    [interpret_and_run_factors] shows that they compose to the code. *)

Record ModelIntent : Type := {
  needsQuery : value;
  query : value;
  explanation : value;
  response : value
}.

(** What the handler is left with when the catch clause has run: no query,
    and the text of the model as the answer. *)
Definition fallback (rawText : value) : ModelIntent :=
  {| needsQuery := VBool false;
     query := VUndefined;
     explanation := VUndefined;
     response := rawText |}.

(** The properties of a parsed value, as they are. *)
Definition verbatim (parsed : value) : Error + ModelIntent :=
  match get parsed "needsQuery", get parsed "query",
        get parsed "explanation", get parsed "response" with
  | inr n, inr q, inr e, inr r =>
      inr {| needsQuery := n; query := q; explanation := e; response := r |}
  | inl e, _, _, _ | _, inl e, _, _ | _, _, inl e, _ | _, _, _, inl e => inl e
  end.

Definition interpret (rawText : value) : M ModelIntent :=
  try_catch
    (parsedResponse <- lift (JSON_parse_value rawText) ;;
     lift (verbatim parsedResponse))
    (fun parseError =>
       emit (Log "Could not parse Claude response as JSON, using raw response") ;;
       ret (fallback rawText)).

(** parsedResponse.needsQuery && parsedResponse.query, as a condition *)
Definition requests_query (intent : ModelIntent) : bool :=
  truthy (needsQuery intent) && truthy (query intent).

(** What follows the interpretation: the query is sent as it is, and an
    error it raises, or one that composing the answer raises once
    [queryResult] is assigned, ends in the same catch clause. *)
Definition run_intent (intent : ModelIntent) : M unit :=
  if requests_query intent then
    try_catch
      (recordset <- pool_query (query intent) ;;
       set_queryResult recordset ;;
       composed <- lift (with_results (response intent) recordset) ;;
       set_claudeMessage (VStr composed))
      (fun parseError =>
         emit (Log "Could not parse Claude response as JSON, using raw response"))
  else set_claudeMessage (response intent).

(** A property read that yields undefined where the read would throw: what
    a parsed value holds under a key when the key is absent for every
    reason. *)
Definition field (parsed : value) (k : string) : value :=
  match get parsed k with
  | inr v => v
  | inl _ => VUndefined
  end.

(** The intent a parsed value stands for when taken as it is. *)
Definition as_is (parsed : value) : ModelIntent :=
  {| needsQuery := field parsed "needsQuery";
     query := field parsed "query";
     explanation := field parsed "explanation";
     response := field parsed "response" |}.

(** The values whose properties can be read. *)
Definition readable (v : value) : bool :=
  match v with
  | VUndefined | VNull => false
  | _ => true
  end.

(** The state in which the inner try statement starts. *)
Definition answered (st : State) (text : value) : State :=
  mkState (db st) (pool st) text VNull (trace st).

(** The body of the 200 response of the chat handler. *)
Definition chat_body (response result : value) : value :=
  VObj [("response", response);
        ("queryResult", result);
        ("timestamp", VStr (now env))].

(** The request body of POST /api/chat after express.json(): the two
    properties the handler destructures, undefined when missing. *)
Record ChatRequest : Type := {
  message : value;
  conversationHistory : value
}.

(** The default of the destructuring pattern, [conversationHistory = []]. *)
Definition or_empty (v : value) : value :=
  match v with
  | VUndefined => VArr []
  | _ => v
  end.

(** *** The guard of POST /api/query *)

(** query.trim() on what the body holds under [query]. *)
Definition call_trim (query : value) : Error + string :=
  match query with
  | VStr s => inr (String_trim s)
  | VUndefined =>
      inl (mkError TypeError "Cannot read properties of undefined (reading 'trim')")
  | VNull =>
      inl (mkError TypeError "Cannot read properties of null (reading 'trim')")
  | _ => inl (mkError TypeError "query.trim is not a function")
  end.

(** query.trim().toUpperCase().startsWith('SELECT') *)
Definition starts_with_SELECT (trimmed : string) : bool :=
  String.prefix "SELECT" (String_toUpperCase trimmed).

(** *** GET /api/tables *)

(** result.recordset.map(row => row.TABLE_NAME) in the tables handler: the
    same reads as in the chat handler, under the name the variable has
    there. *)
Definition result_TABLE_NAMES (recordset : value) : Error + list value :=
  match recordset with
  | VArr rows => table_names rows
  | VUndefined =>
      inl (mkError TypeError "Cannot read properties of undefined (reading 'map')")
  | VNull =>
      inl (mkError TypeError "Cannot read properties of null (reading 'map')")
  | _ => inl (mkError TypeError "result.recordset.map is not a function")
  end.

(** The try block of the tables handler once [pool] is set: the same text
    in both files. *)
Definition list_tables : M unit :=
  recordset <- pool_query (VStr tables_sql) ;;
  names <- lift (result_TABLE_NAMES recordset) ;;
  respond 200 (VArr names).

End Gateway.

(** *** The origins that the cors middleware of server.js accepts *)

(** s.split(',') *)
Fixpoint split_comma (s : string) : list string :=
  match s with
  | EmptyString => [EmptyString]
  | String c rest =>
      if Ascii.eqb c ","
      then EmptyString :: split_comma rest
      else
        match split_comma rest with
        | first :: others => String c first :: others
        | [] => [String c EmptyString]
        end
  end.

(** process.env.ALLOWED_ORIGINS ? process.env.ALLOWED_ORIGINS.split(',') : '*'
    An environment variable is a string or is not set; the result is the
    string ['*'] or the list of the parts. *)
Definition cors_origin (ALLOWED_ORIGINS : option string) : string + list string :=
  match ALLOWED_ORIGINS with
  | None | Some EmptyString => inl "*"
  | Some s => inr (split_comma s)
  end.

(** A request starts with [pool] unassigned and an empty trace. *)
Definition start {JN : JsNumber} {P : Platform} (store : Store) : State :=
  mkState store false VUndefined VUndefined [].

(** The first response a trace holds. *)
Fixpoint response_of {JN : JsNumber} {P : Platform} (events : list Event)
  : option (nat * value) :=
  match events with
  | [] => None
  | Respond status body :: _ => Some (status, body)
  | _ :: rest => response_of rest
  end.

(** The commands a trace sent to the store, in order. *)
Fixpoint commands_of {JN : JsNumber} {P : Platform} (events : list Event)
  : list value :=
  match events with
  | [] => []
  | Query command :: rest => command :: commands_of rest
  | _ :: rest => commands_of rest
  end.

(** ** src/server.js: a pool for each request *)

Module ServerJs.
Section Handlers.
Context {JN : JsNumber} {P : Platform}.
Variable env : Env.

(** The state of a chat request once [pool] holds the connection. *)
Definition connected (store : Store) : State :=
  mkState store true VUndefined VUndefined [Connect].

Definition getDatabaseConnection : M unit :=
  try_catch (sql_connect env)
    (fun err => emit (Log "Database connection failed:") ;; throw err).

(** The finally block of the three handlers. *)
Definition release : M unit :=
  open <- read pool ;;
  if (open : bool) then
    try_catch (pool_close env)
      (fun closeErr => emit (Log "Error closing pool:"))
  else ret tt.

(** app.post('/api/chat', ...) *)
Definition api_chat (req : ChatRequest) : M unit :=
  try_finally
    (try_catch
       (getDatabaseConnection ;;
        set_pool true ;;
        chat_pipeline env (message req) (or_empty (conversationHistory req)))
       (fun err =>
          emit (Log "Chat endpoint error:") ;;
          respond 500 (VObj [("error", VStr "Internal server error");
                             ("details", VStr (err_message err))])))
    release.

(** app.post('/api/query', ...) *)
Definition api_query (query : value) : M unit :=
  try_finally
    (try_catch
       (trimmed <- lift (call_trim query) ;;
        if negb (starts_with_SELECT trimmed) then
          respond 400 (VObj [("error", VStr "Only SELECT queries are allowed")])
        else
          getDatabaseConnection ;;
          set_pool true ;;
          recordset <- pool_query query ;;
          respond 200 recordset)
       (fun err =>
          emit (Log "Query endpoint error:") ;;
          respond 500 (VObj [("error", VStr (err_message err))])))
    release.

(** app.get('/api/tables', ...) *)
Definition api_tables : M unit :=
  try_finally
    (try_catch
       (getDatabaseConnection ;;
        set_pool true ;;
        list_tables)
       (fun err =>
          emit (Log "Tables endpoint error:") ;;
          respond 500 (VObj [("error", VStr (err_message err))])))
    release.

End Handlers.
End ServerJs.

(** ** src/unnamed/part_000: one pool for the process *)

Module LongRunning.
Section Handlers.
Context {JN : JsNumber} {P : Platform}.
Variable env : Env.

(** Called once when the module is loaded; a failure is logged and leaves
    [pool] undefined. *)
Definition connectToDatabase : M unit :=
  try_catch
    (sql_connect env ;;
     set_pool true ;;
     emit (Log "Connected to SQL Server"))
    (fun err => emit (Log "Database connection failed:")).

(** app.post('/api/chat', ...) *)
Definition api_chat (req : ChatRequest) : M unit :=
  try_catch
    (chat_pipeline env (message req) (or_empty (conversationHistory req)))
    (fun err =>
       emit (Log "Chat endpoint error:") ;;
       respond 500 (VObj [("error", VStr "Internal server error")])).

(** app.post('/api/query', ...) *)
Definition api_query (query : value) : M unit :=
  try_catch
    (trimmed <- lift (call_trim query) ;;
     if negb (starts_with_SELECT trimmed) then
       respond 400 (VObj [("error", VStr "Only SELECT queries are allowed")])
     else
       recordset <- pool_query query ;;
       respond 200 recordset)
    (fun err => respond 500 (VObj [("error", VStr (err_message err))])).

(** app.get('/api/tables', ...) *)
Definition api_tables : M unit :=
  try_catch list_tables
    (fun err => respond 500 (VObj [("error", VStr (err_message err))])).

(** The state in which requests are served: after the start-up call, with
    the trace of the start-up put aside. *)
Definition booted (store : Store) : State :=
  let st := snd (connectToDatabase (start store)) in
  mkState (db st) (pool st) (claudeMessage st) (queryResult st) [].

End Handlers.
End LongRunning.

(** ** A concrete platform

    Texts are ASCII, numbers are integers, and the store is a list of table
    names that understands four kinds of command. This platform serves to
    run the handlers on explicit inputs; on the texts used below its
    built-ins return what Node returns. *)

Module Concrete.

Definition is_space (c : ascii) : bool :=
  let n := nat_of_ascii c in
  ((9 <=? n) && (n <=? 13) || (n =? 32))%nat.

Fixpoint trim_start (s : string) : string :=
  match s with
  | String c rest => if is_space c then trim_start rest else s
  | EmptyString => EmptyString
  end.

(** The text without its trailing white space: a character is kept when
    something other than white space follows or when it is not white space
    itself. *)
Fixpoint trim_end (s : string) : string :=
  match s with
  | EmptyString => EmptyString
  | String c rest =>
      match trim_end rest with
      | EmptyString => if is_space c then EmptyString else String c EmptyString
      | kept => String c kept
      end
  end.

Definition trim (s : string) : string := trim_end (trim_start s).

Definition upper (c : ascii) : ascii :=
  let n := nat_of_ascii c in
  if ((97 <=? n) && (n <=? 122))%nat then ascii_of_nat (n - 32) else c.

Fixpoint toUpperCase (s : string) : string :=
  match s with
  | EmptyString => EmptyString
  | String c rest => String (upper c) (toUpperCase rest)
  end.

(** Integers, written in decimal, stand for the doubles that hold them. *)
#[local] Instance integers : JsNumber := {|
  number := Z;
  number_truthy := fun z => negb (z =? 0)%Z;
  number_toString := fun z => NilZero.string_of_int (Z.to_int z);
  number_isFinite := fun _ => true
|}.

(** *** JSON.parse on ASCII text

    A recursive-descent reader of the JSON grammar without \u escapes and
    without fractions or exponents; on such text it reports a syntax
    error. *)

Definition is_json_space (c : ascii) : bool :=
  let n := nat_of_ascii c in
  ((n =? 32) || (n =? 9) || (n =? 10) || (n =? 13))%nat.

Fixpoint skip_space (s : string) : string :=
  match s with
  | String c rest => if is_json_space c then skip_space rest else s
  | EmptyString => EmptyString
  end.

Fixpoint strip_prefix (p s : string) : option string :=
  match p, s with
  | EmptyString, _ => Some s
  | String a p', String b s' => if Ascii.eqb a b then strip_prefix p' s' else None
  | String _ _, EmptyString => None
  end.

Definition unescape (c : ascii) : option ascii :=
  let n := nat_of_ascii c in
  if (n =? 34)%nat then Some c
  else if (n =? 92)%nat then Some c
  else if (n =? 47)%nat then Some c
  else if (n =? 98)%nat then Some (ascii_of_nat 8)
  else if (n =? 102)%nat then Some (ascii_of_nat 12)
  else if (n =? 110)%nat then Some (ascii_of_nat 10)
  else if (n =? 114)%nat then Some (ascii_of_nat 13)
  else if (n =? 116)%nat then Some (ascii_of_nat 9)
  else None.

(** The characters of a string literal after its opening quote, and what
    follows the closing quote. *)
Fixpoint read_chars (s : string) : option (string * string) :=
  match s with
  | EmptyString => None
  | String c rest =>
      let n := nat_of_ascii c in
      if (n =? 34)%nat then Some (EmptyString, rest)
      else if (n =? 92)%nat then
        match rest with
        | String e rest' =>
            match unescape e, read_chars rest' with
            | Some c', Some (t, r) => Some (String c' t, r)
            | _, _ => None
            end
        | EmptyString => None
        end
      else if (n <? 32)%nat then None
      else
        match read_chars rest with
        | Some (t, r) => Some (String c t, r)
        | None => None
        end
  end.

Definition is_digit (c : ascii) : bool :=
  let n := nat_of_ascii c in ((48 <=? n) && (n <=? 57))%nat.

Fixpoint read_digits (s : string) (acc : Z) : Z * string :=
  match s with
  | String c rest =>
      if is_digit c
      then read_digits rest (10 * acc + Z.of_nat (nat_of_ascii c - 48))%Z
      else (acc, s)
  | EmptyString => (acc, s)
  end.

Definition starts_with_any (cs : list ascii) (s : string) : bool :=
  match s with
  | String c _ => existsb (Ascii.eqb c) cs
  | EmptyString => false
  end.

(** An integer literal without sign: a single 0, or digits that do not
    begin with 0; nothing that continues it as a fraction or exponent. *)
Definition read_natural (s : string) : option (Z * string) :=
  match s with
  | String c rest =>
      if negb (is_digit c) then None
      else
        let (z, r) := if Ascii.eqb c "0" then (0%Z, rest) else read_digits s 0 in
        if starts_with_any ["."; "e"; "E"]%char r || starts_with_any
             ["0"; "1"; "2"; "3"; "4"; "5"; "6"; "7"; "8"; "9"]%char r
        then None else Some (z, r)
  | EmptyString => None
  end.

Definition read_number (s : string) : option (Z * string) :=
  match s with
  | String c rest =>
      if Ascii.eqb c "-" then
        match read_natural rest with
        | Some (z, r) => Some ((- z)%Z, r)
        | None => None
        end
      else read_natural s
  | EmptyString => None
  end.

(** Defining a property again replaces its value and keeps its place. *)
Fixpoint set_prop (k : string) (v : value) (props : list (string * value))
  : list (string * value) :=
  match props with
  | [] => [(k, v)]
  | (k', v') :: rest =>
      if String.eqb k k' then (k, v) :: rest else (k', v') :: set_prop k v rest
  end.

Fixpoint read_value (fuel : nat) (s : string) : option (value * string) :=
  match fuel with
  | O => None
  | S fuel' =>
      match skip_space s with
      | EmptyString => None
      | String c rest as s' =>
          match nat_of_ascii c with
          | 110 => option_map (pair VNull) (strip_prefix "null" s')
          | 116 => option_map (pair (VBool true)) (strip_prefix "true" s')
          | 102 => option_map (pair (VBool false)) (strip_prefix "false" s')
          | 34 =>
              match read_chars rest with
              | Some (t, r) => Some (VStr t, r)
              | None => None
              end
          | 91 =>
              match skip_space rest with
              | String "]" r => Some (VArr [], r)
              | _ =>
                  match read_items fuel' rest with
                  | Some (items, r) => Some (VArr items, r)
                  | None => None
                  end
              end
          | 123 =>
              match skip_space rest with
              | String "}" r => Some (VObj [], r)
              | _ =>
                  match read_members fuel' rest with
                  | Some (props, r) =>
                      Some (VObj (fold_left (fun o kv => set_prop (fst kv) (snd kv) o)
                                            props []), r)
                  | None => None
                  end
              end
          | _ =>
              match read_number s' with
              | Some (z, r) => Some (VNum z, r)
              | None => None
              end
          end
      end
  end

with read_items (fuel : nat) (s : string) : option (list value * string) :=
  match fuel with
  | O => None
  | S fuel' =>
      match read_value fuel' s with
      | Some (v, r) =>
          match skip_space r with
          | String "," r' =>
              match read_items fuel' r' with
              | Some (vs, r'') => Some (v :: vs, r'')
              | None => None
              end
          | String "]" r' => Some ([v], r')
          | _ => None
          end
      | None => None
      end
  end

with read_members (fuel : nat) (s : string)
  : option (list (string * value) * string) :=
  match fuel with
  | O => None
  | S fuel' =>
      match skip_space s with
      | String c rest =>
          if negb (nat_of_ascii c =? 34)%nat then None
          else
            match read_chars rest with
            | Some (k, r) =>
                match skip_space r with
                | String ":" r1 =>
                    match read_value fuel' r1 with
                    | Some (v, r2) =>
                        match skip_space r2 with
                        | String "," r3 =>
                            match read_members fuel' r3 with
                            | Some (kvs, r4) => Some ((k, v) :: kvs, r4)
                            | None => None
                            end
                        | String "}" r3 => Some ([(k, v)], r3)
                        | _ => None
                        end
                    | None => None
                    end
                | _ => None
                end
            | None => None
            end
      | EmptyString => None
      end
  end.

Definition json_parse (text : string) : Error + value :=
  match read_value (2 * String.length text + 2) text with
  | Some (v, r) =>
      match skip_space r with
      | EmptyString => inr v
      | _ => inl (mkError SyntaxError "Unexpected non-whitespace character after JSON")
      end
  | None => inl (mkError SyntaxError "Unexpected token in JSON")
  end.

(** *** A store of named tables

    The catalog query lists the tables; counting or selecting the rows of
    a table answers when the table exists and fails when it does not;
    DROP TABLE removes the table and has no recordset; anything else is a
    syntax error. *)

Definition select_count_from : string := "SELECT COUNT(" ++ "*" ++ ") FROM ".

Definition has_table (t : string) (tables : list string) : bool :=
  existsb (String.eqb t) tables.

Definition invalid_object (t : string) : Error :=
  mkError RequestError ("Invalid object name '" ++ t ++ "'.").

Definition run_command (tables : list string) (command : value)
  : (Error + value) * list string :=
  match command with
  | VStr written =>
      let text := trim written in
      if String.eqb text tables_sql then
        (inr (VArr (map (fun t => VObj [("TABLE_NAME", VStr t)]) tables)), tables)
      else
        match strip_prefix select_count_from text,
              strip_prefix "SELECT * FROM " text,
              strip_prefix "DROP TABLE " text with
        | Some t, _, _ =>
            if has_table t tables
            then (inr (VArr [VObj [(EmptyString, VNum (JN := Concrete.integers) 5%Z)]]), tables)
            else (inl (invalid_object t), tables)
        | None, Some t, _ =>
            if has_table t tables
            then (inr (VArr []), tables)
            else (inl (invalid_object t), tables)
        | None, None, Some t =>
            if has_table t tables
            then (inr VUndefined, filter (fun u => negb (String.eqb t u)) tables)
            else (inl (mkError RequestError
                         ("Cannot drop the table '" ++ t ++ "', because it does not exist.")),
                  tables)
        | None, None, None =>
            (inl (mkError RequestError "Incorrect syntax."), tables)
        end
  | _ => (inl (mkError TypeError "The command is not a string."), tables)
  end.

Definition ascii_platform : Platform := {|
  JSON_parse := json_parse;
  String_trim := trim;
  String_toUpperCase := toUpperCase;
  Store := list string;
  run_sql := run_command
|}.

(** A model service that answers every call with one content block holding
    [text], behind a store and a clock that work. *)
Definition answering (text : string) : Env := {|
  CLAUDE_API_KEY := Some "sk-test";
  connect_outcome := None;
  close_outcome := None;
  upstream := fun _ => Answers (VObj [("content", VArr [VObj [("type", VStr "text");
                                                              ("text", VStr text)]])]);
  now := "2024-05-01T12:00:00.000Z"
|}.

(** A model service that never answers. *)
Definition unanswered : Env := {|
  CLAUDE_API_KEY := Some "sk-test";
  connect_outcome := None;
  close_outcome := None;
  upstream := fun _ => Silent;
  now := "2024-05-01T12:00:00.000Z"
|}.

Definition hello : ChatRequest :=
  {| message := VStr "How many orders are there?";
     conversationHistory := VUndefined |}.

(** The store of the examples, and the four handlers started on it. *)
Definition shop : Store (Platform := ascii_platform) := ["Orders"; "Users"].

Definition server_chat (env : Env) (req : ChatRequest) : Outcome unit * State :=
  ServerJs.api_chat (P := ascii_platform) env req (start shop).

Definition server_query (env : Env) (query : value) : Outcome unit * State :=
  ServerJs.api_query (P := ascii_platform) env query (start shop).

Definition long_chat (env : Env) (req : ChatRequest) : Outcome unit * State :=
  LongRunning.api_chat (P := ascii_platform) env req (LongRunning.booted env shop).

Definition long_query (env : Env) (query : value) : Outcome unit * State :=
  LongRunning.api_query (P := ascii_platform) query (LongRunning.booted env shop).

(** The JSON text of an object whose properties are [fields], each given
    with its value already written as JSON. *)
Definition json_object (fields : list (string * string)) : string :=
  "{" ++ join "," (map (fun kv => quote (fst kv) ++ ":" ++ snd kv) fields) ++ "}".

(** Texts of the model used in the examples. *)
Definition count_orders : string := select_count_from ++ "Orders".

Definition scenario_E : string :=
  json_object [("needsQuery", "true"); ("query", quote count_orders);
               ("response", quote "here")].

Definition drop_users : string :=
  json_object [("needsQuery", "true"); ("query", quote "DROP TABLE Users");
               ("response", quote "Cleaning up")].

Definition select_missing : string :=
  json_object [("needsQuery", "true"); ("query", quote "SELECT * FROM Missing");
               ("response", quote "Looking it up")].

Definition empty_query : string :=
  json_object [("needsQuery", "true"); ("query", quote EmptyString);
               ("response", quote "Which table do you mean?")].

Definition explanation_only : string :=
  json_object [("needsQuery", "true"); ("query", quote count_orders);
               ("explanation", quote "Counting the orders")].

Definition explanation_and_response : string :=
  json_object [("needsQuery", "true"); ("query", quote count_orders);
               ("explanation", quote "Counting the orders");
               ("response", quote "here")].

Definition no_response : string := json_object [("needsQuery", "false")].

(** A response that is an object with a property named toString. *)
Definition unconvertible : string :=
  json_object [("needsQuery", "true"); ("query", quote count_orders);
               ("response", json_object [("toString", "1")])].

(** A store that cannot be reached. *)
Definition unreachable : Env := {|
  CLAUDE_API_KEY := Some "sk-test";
  connect_outcome := Some (mkError ConnectionError "Failed to connect to db:1433");
  close_outcome := None;
  upstream := fun _ => Silent;
  now := "2024-05-01T12:00:00.000Z"
|}.

(** A model service that answers 2xx with a body that has no [content]. *)
Definition malformed : Env := {|
  CLAUDE_API_KEY := Some "sk-test";
  connect_outcome := None;
  close_outcome := None;
  upstream := fun _ => Answers (VObj [("type", VStr "message")]);
  now := "2024-05-01T12:00:00.000Z"
|}.

(** A model service that rejects the call. *)
Definition refusing : Env := {|
  CLAUDE_API_KEY := None;
  connect_outcome := None;
  close_outcome := None;
  upstream := fun _ => Refuses (mkError AxiosError "Request failed with status code 401");
  now := "2024-05-01T12:00:00.000Z"
|}.

(** Requests with a history of two turns, and with a history that is not a
    list. *)
Definition earlier : list value :=
  [VObj [("role", VStr "user"); ("content", VStr "Hello")];
   VObj [("role", VStr "assistant"); ("content", VStr "Hi, what do you need?")]].

Definition follow_up : ChatRequest :=
  {| message := VStr "How many orders are there?";
     conversationHistory := VArr earlier |}.

Definition bad_history : ChatRequest :=
  {| message := VStr "How many orders are there?";
     conversationHistory := VNull |}.

End Concrete.

(** ** The words of the specification

    The repository has no function for the query policy of the
    specification, nor for the first token of a query. They are written
    out here from the specification's words, on ASCII text, to be compared
    with what the handlers do. *)

Module Spec.
Import Concrete.

Definition is_word_char (c : ascii) : bool :=
  let n := nat_of_ascii c in
  ((48 <=? n) && (n <=? 57) || (65 <=? n) && (n <=? 90)
   || (97 <=? n) && (n <=? 122) || (n =? 95))%nat.

Fixpoint first_word (s : string) : string :=
  match s with
  | String c rest => if is_word_char c then String c (first_word rest) else EmptyString
  | EmptyString => EmptyString
  end.

(** The first token of the trimmed query, in upper case. *)
Definition first_token (q : string) : string :=
  toUpperCase (first_word (trim q)).

Definition first_token_is_SELECT (q : string) : bool :=
  String.eqb (first_token q) "SELECT".

Fixpoint contains (needle hay : string) : bool :=
  String.prefix needle hay
  || match hay with
     | String _ rest => contains needle rest
     | EmptyString => false
     end.

(** The text without trailing white space and semicolons. *)
Fixpoint strip_end (s : string) : string :=
  match s with
  | EmptyString => EmptyString
  | String c rest =>
      match strip_end rest with
      | EmptyString =>
          if is_space c || Ascii.eqb c ";" then EmptyString else String c EmptyString
      | kept => String c kept
      end
  end.

Definition forbidden : list string :=
  ["INSERT"; "UPDATE"; "DELETE"; "DROP"; "ALTER"; "CREATE"; "TRUNCATE";
   "MERGE"; "EXEC"; "EXECUTE"; "GRANT"; "REVOKE"].

Record QueryVerdict : Type := { allowed : bool; reason : option string }.

Definition reject (why : string) : QueryVerdict :=
  {| allowed := false; reason := Some why |}.

(** QueryGuard.validate, steps 1 to 6 of section 4.5. *)
Definition validate (candidateQuery : string) : QueryVerdict :=
  let q := trim candidateQuery in
  if String.eqb q EmptyString then reject "empty query"
  else if contains ";" (strip_end q) then reject "multiple statements"
  else if negb (first_token_is_SELECT q) then reject "not a SELECT statement"
  else if existsb (fun k => contains k (toUpperCase q)) forbidden
       then reject "forbidden keyword"
  else {| allowed := true; reason := None |}.

End Spec.

(** ** Vocabulary of the statements *)

Section Vocabulary.
Context {JN : JsNumber} {P : Platform}.

(** Events that take or give back the connection. *)
Definition on_connection (e : Event) : bool :=
  match e with
  | Connect | Close => true
  | _ => false
  end.

Definition quiet (e : Event) : bool := negb (on_connection e).

(** The two kinds of event between the connection and the model's answer. *)
Definition asking (e : Event) : bool :=
  match e with
  | Query _ | Post _ _ _ => true
  | _ => false
  end.

Definition is_log (e : Event) : bool :=
  match e with
  | Log _ => true
  | _ => false
  end.

Definition is_response (e : Event) : bool :=
  match e with
  | Respond _ _ => true
  | _ => false
  end.

(** [m] keeps [pool] as it is and only adds events that satisfy [ok]. *)
Definition adds (ok : Event -> bool) {A} (m : M A) : Prop :=
  forall st out st',
    m st = (out, st') ->
    pool st' = pool st /\
    exists new, trace st' = (trace st ++ new)%list /\ forallb ok new = true.

(** The outcomes with which a request is over. *)
Definition settled {A} (out : Outcome A) : bool :=
  match out with
  | Pending => false
  | _ => true
  end.

(** [st] after one more line on the console. *)
Definition logged (st : State) (text : string) : State :=
  mkState (db st) (pool st) (claudeMessage st) (queryResult st)
          (trace st ++ [Log text]).

(** What the catch clause of the inner try statement prints. *)
Definition not_json : string :=
  "Could not parse Claude response as JSON, using raw response".

(** [st] after more events. *)
Definition after (st : State) (events : list Event) : State :=
  mkState (db st) (pool st) (claudeMessage st) (queryResult st)
          (trace st ++ events).

(** What the finally block of server.js adds when [pool] is set. *)
Definition closing (env : Env) : list Event :=
  match close_outcome env with
  | None => [Close]
  | Some _ => [Close; Log "Error closing pool:"]
  end.

(** The body of the 500 response of the chat handler of server.js. *)
Definition failure_body (e : Error) : value :=
  VObj [("error", VStr "Internal server error");
        ("details", VStr (err_message e))].

(** The responses a trace holds, in order. *)
Definition responses (events : list Event) : list Event :=
  filter is_response events.

Definition unanswered_by (e : Event) : bool := negb (is_response e).

(** The requests a trace sent to the model service, in order. *)
Fixpoint posts_of (events : list Event) : list ModelRequest :=
  match events with
  | [] => []
  | Post _ body _ :: rest => body :: posts_of rest
  | _ :: rest => posts_of rest
  end.

Definition not_post (e : Event) : bool :=
  match e with
  | Post _ _ _ => false
  | _ => true
  end.

(** A text made of white space only, for the ASCII platform. *)
Fixpoint blank (s : string) : bool :=
  match s with
  | EmptyString => true
  | String c rest => Concrete.is_space c && blank rest
  end.

(** A text without white space, for the ASCII platform. *)
Fixpoint spaceless (s : string) : bool :=
  match s with
  | EmptyString => true
  | String c rest => negb (Concrete.is_space c) && spaceless rest
  end.

(** A text without a comma. *)
Fixpoint comma_free (s : string) : bool :=
  match s with
  | EmptyString => true
  | String c rest => negb (Ascii.eqb c ",") && comma_free rest
  end.

(** The values a column of a recordset holds. *)
Definition scalar (v : value) : bool :=
  match v with
  | VNull | VBool _ | VNum _ | VStr _ => true
  | _ => false
  end.

(** How JSON writes such a value. *)
Definition cell_text (v : value) : string :=
  match v with
  | VNull => "null"
  | VBool true => "true"
  | VBool false => "false"
  | VNum n => if number_isFinite n then number_toString n else "null"
  | VStr s => quote s
  | _ => EmptyString
  end.

(** [env] with another outcome for [pool.close()]. *)
Definition closing_with (env : Env) (outcome : option Error) : Env :=
  {| CLAUDE_API_KEY := CLAUDE_API_KEY env;
     connect_outcome := connect_outcome env;
     close_outcome := outcome;
     upstream := upstream env;
     now := now env |}.

End Vocabulary.

(** * Properties *)

Unset Implicit Arguments.

Section Laws.
Context {JN : JsNumber} {P : Platform}.

Lemma adds_ret (ok : Event -> bool) A (a : A) : adds ok (ret a).
Proof.
  intros st out st' H. inversion H; subst. split; [reflexivity|].
  exists []. now rewrite app_nil_r.
Qed.

Lemma adds_throw (ok : Event -> bool) A (e : Error) : adds ok (throw (A := A) e).
Proof.
  intros st out st' H. inversion H; subst. split; [reflexivity|].
  exists []. now rewrite app_nil_r.
Qed.

Lemma adds_never (ok : Event -> bool) A : adds ok (never (A := A)).
Proof.
  intros st out st' H. inversion H; subst. split; [reflexivity|].
  exists []. now rewrite app_nil_r.
Qed.

Lemma adds_lift (ok : Event -> bool) A (r : Error + A) : adds ok (lift r).
Proof. destruct r; [apply adds_throw | apply adds_ret]. Qed.

Lemma adds_read (ok : Event -> bool) A (f : State -> A) : adds ok (read f).
Proof.
  intros st out st' H. inversion H; subst. split; [reflexivity|].
  exists []. now rewrite app_nil_r.
Qed.

Lemma adds_emit (ok : Event -> bool) (e : Event) : ok e = true -> adds ok (emit e).
Proof.
  intros He st out st' H. inversion H; subst. split; [reflexivity|].
  exists [e]. simpl. now rewrite He.
Qed.

Lemma adds_set_claudeMessage (ok : Event -> bool) v : adds ok (set_claudeMessage v).
Proof.
  intros st out st' H. inversion H; subst. split; [reflexivity|].
  exists []. simpl. now rewrite app_nil_r.
Qed.

Lemma adds_set_queryResult (ok : Event -> bool) v : adds ok (set_queryResult v).
Proof.
  intros st out st' H. inversion H; subst. split; [reflexivity|].
  exists []. simpl. now rewrite app_nil_r.
Qed.

Lemma adds_bind (ok : Event -> bool) A B (m : M A) (k : A -> M B) :
  adds ok m -> (forall a, adds ok (k a)) -> adds ok (bind m k).
Proof.
  intros Hm Hk st out st' H. unfold bind in H.
  destruct (m st) as [[a|e|] st1] eqn:E; destruct (Hm _ _ _ E) as [Hp [n1 [Ht Hn1]]].
  - destruct (Hk a _ _ _ H) as [Hp' [n2 [Ht' Hn2]]].
    split; [congruence|]. exists (n1 ++ n2)%list.
    rewrite Ht', Ht, app_assoc, forallb_app, Hn1, Hn2. auto.
  - inversion H; subst. split; [assumption|]. now exists n1.
  - inversion H; subst. split; [assumption|]. now exists n1.
Qed.

Lemma adds_try_catch (ok : Event -> bool) A (m : M A) (h : Error -> M A) :
  adds ok m -> (forall e, adds ok (h e)) -> adds ok (try_catch m h).
Proof.
  intros Hm Hh st out st' H. unfold try_catch in H.
  destruct (m st) as [[a|e|] st1] eqn:E; destruct (Hm _ _ _ E) as [Hp [n1 [Ht Hn1]]].
  - inversion H; subst. split; [assumption|]. now exists n1.
  - destruct (Hh e _ _ _ H) as [Hp' [n2 [Ht' Hn2]]].
    split; [congruence|]. exists (n1 ++ n2)%list.
    rewrite Ht', Ht, app_assoc, forallb_app, Hn1, Hn2. auto.
  - inversion H; subst. split; [assumption|]. now exists n1.
Qed.

Lemma adds_pool_query (ok : Event -> bool) command :
  ok (Query command) = true -> adds ok (pool_query command).
Proof.
  intros Hq st out st' H. unfold pool_query in H.
  destruct (pool st) eqn:Ep.
  - destruct (run_sql (db st) command) as [[e|rs] db'];
      inversion H; subst; simpl; (split; [auto|]);
      exists [Query command]; simpl; now rewrite Hq.
  - inversion H; subst. split; [auto|]. exists []. now rewrite app_nil_r.
Qed.

Lemma adds_axios_post (ok : Event -> bool) env url body config :
  ok (Post url body config) = true -> adds ok (axios_post env url body config).
Proof.
  intros Hq. unfold axios_post. apply adds_bind.
  - now apply adds_emit.
  - intros _. destruct (upstream env body).
    + apply adds_ret.
    + apply adds_throw.
    + destruct (timeout config); [apply adds_throw | apply adds_never].
Qed.

(** The chat pipeline neither opens nor closes a connection, in either
    file. *)
Lemma adds_interpret_and_run : adds quiet interpret_and_run.
Proof.
  unfold interpret_and_run.
  apply adds_try_catch; [|intros; now apply adds_emit].
  apply adds_bind; [apply adds_read|intros text].
  apply adds_bind; [apply adds_lift|intros parsed].
  apply adds_bind; [apply adds_lift|intros nq].
  apply adds_bind; [destruct (truthy nq); [apply adds_lift|apply adds_ret]|intros wanted].
  destruct (truthy wanted).
  - apply adds_bind; [apply adds_lift|intros q].
    apply adds_bind; [now apply adds_pool_query|intros rs].
    apply adds_bind; [apply adds_set_queryResult|intros _].
    apply adds_bind; [apply adds_lift|intros r].
    apply adds_bind; [apply adds_read|intros qr].
    apply adds_bind; [apply adds_lift|intros composed].
    apply adds_set_claudeMessage.
  - apply adds_bind; [apply adds_lift|intros r]. apply adds_set_claudeMessage.
Qed.

Lemma adds_ask_model env message history : adds quiet (ask_model env message history).
Proof.
  unfold ask_model.
  apply adds_bind; [now apply adds_pool_query|intros rs].
  apply adds_bind; [apply adds_lift|intros names].
  apply adds_bind; [apply adds_lift|intros prompt].
  apply adds_bind; [apply adds_lift|intros turns].
  apply adds_bind; [now apply adds_axios_post|intros data].
  apply adds_lift.
Qed.

Lemma adds_chat_pipeline env message history :
  adds quiet (chat_pipeline env message history).
Proof.
  unfold chat_pipeline.
  apply adds_bind; [apply adds_ask_model|intros text].
  apply adds_bind; [apply adds_set_claudeMessage|intros _].
  apply adds_bind; [apply adds_set_queryResult|intros _].
  apply adds_bind; [apply adds_interpret_and_run|intros _].
  apply adds_bind; [apply adds_read|intros r].
  apply adds_bind; [apply adds_read|intros q].
  now apply adds_emit.
Qed.

(** *** The interpretation step *)

Lemma get_readable parsed k : readable parsed = true -> get parsed k = inr (field parsed k).
Proof. unfold field. destruct parsed; simpl; intros H; try discriminate; reflexivity. Qed.

Lemma get_unreadable parsed k : readable parsed = false -> exists e, get parsed k = inl e.
Proof. destruct parsed; simpl; intros H; try discriminate; eexists; reflexivity. Qed.

Lemma verbatim_readable parsed :
  readable parsed = true -> verbatim parsed = inr (as_is parsed).
Proof.
  intros H. unfold verbatim. now rewrite !(get_readable _ _ H).
Qed.

Lemma verbatim_unreadable parsed :
  readable parsed = false -> exists e, verbatim parsed = inl e.
Proof.
  intros H. unfold verbatim. destruct (get_unreadable _ "needsQuery" H) as [e ->].
  exists e. destruct (get parsed "query"), (get parsed "explanation"),
    (get parsed "response"); reflexivity.
Qed.

Lemma parse_written (v : value) (written : string) :
  toString v = inr written -> JSON_parse_value v = JSON_parse written.
Proof. intros H. unfold JSON_parse_value. now rewrite H. Qed.

Lemma parse_unwritten (v : value) (e : Error) :
  toString v = inl e -> JSON_parse_value v = inl e.
Proof. intros H. unfold JSON_parse_value. now rewrite H. Qed.

Lemma interpret_throws rawText e st :
  JSON_parse_value rawText = inl e ->
  interpret rawText st = (Returned (fallback rawText), logged st not_json).
Proof. intros H. unfold interpret, try_catch, bind. now rewrite H. Qed.

Lemma interpret_unreadable rawText parsed st :
  JSON_parse_value rawText = inr parsed -> readable parsed = false ->
  interpret rawText st = (Returned (fallback rawText), logged st not_json).
Proof.
  intros H Hr. unfold interpret, try_catch, bind. rewrite H. simpl.
  destruct (verbatim_unreadable _ Hr) as [e ->]. reflexivity.
Qed.

Lemma interpret_readable rawText parsed st :
  JSON_parse_value rawText = inr parsed -> readable parsed = true ->
  interpret rawText st = (Returned (as_is parsed), st).
Proof.
  intros H Hr. unfold interpret, try_catch, bind. rewrite H. simpl.
  now rewrite (verbatim_readable _ Hr).
Qed.

(** *** The inner try statement is interpretation followed by execution *)

Lemma truthy_wanted (n q : value) :
  truthy (if truthy n then q else n) = truthy n && truthy q.
Proof. destruct (truthy n) eqn:E; simpl; [reflexivity | exact E]. Qed.

Lemma interpret_and_run_factors (st : State) :
  interpret_and_run st = bind (interpret (claudeMessage st)) run_intent st.
Proof.
  destruct (JSON_parse_value (claudeMessage st)) as [e|parsed] eqn:Ep.
  - unfold bind at 1. rewrite (interpret_throws _ e st Ep).
    unfold interpret_and_run, try_catch, bind, read. rewrite Ep. reflexivity.
  - destruct (readable parsed) eqn:Er.
    + unfold bind at 1. rewrite (interpret_readable _ parsed st Ep Er).
      unfold interpret_and_run, run_intent, requests_query, try_catch, bind, read.
      rewrite Ep. simpl.
      rewrite (get_readable parsed "needsQuery" Er), (get_readable parsed "query" Er),
        (get_readable parsed "response" Er). simpl.
      destruct (truthy (field parsed "needsQuery")) eqn:En; simpl; [|now rewrite En].
      destruct (truthy (field parsed "query")) eqn:Eq; simpl; [|reflexivity].
      destruct (pool_query (field parsed "query") st) as [[rs|e|] st1];
        [simpl; destruct (with_results (field parsed "response") rs)|..]; reflexivity.
    + unfold bind at 1. rewrite (interpret_unreadable _ parsed st Ep Er).
      unfold interpret_and_run, try_catch, bind, read. rewrite Ep. simpl.
      destruct (get_unreadable _ "needsQuery" Er) as [e ->]. reflexivity.
Qed.

Lemma interpret_cases (rawText : value) (st : State) :
  exists i st',
    interpret rawText st = (Returned i, st') /\
    (st' = st \/ st' = logged st not_json).
Proof.
  destruct (JSON_parse_value rawText) as [e|parsed] eqn:Ep.
  - eexists _, _. split; [exact (interpret_throws _ e st Ep)|now right].
  - destruct (readable parsed) eqn:Er.
    + eexists _, _. split; [exact (interpret_readable _ parsed st Ep Er)|now left].
    + eexists _, _. split; [exact (interpret_unreadable _ parsed st Ep Er)|now right].
Qed.

Lemma interpret_state rawText st i st' :
  interpret rawText st = (Returned i, st') ->
  db st' = db st /\ pool st' = pool st /\ claudeMessage st' = claudeMessage st /\
  queryResult st' = queryResult st /\
  exists logs, trace st' = (trace st ++ logs)%list /\ forallb is_log logs = true.
Proof.
  intros H. destruct (interpret_cases rawText st) as [i0 [st0 [H0 [->| ->]]]];
    rewrite H0 in H; inversion H; subst; simpl; repeat split.
  - exists []. now rewrite app_nil_r.
  - now exists [Log not_json].
Qed.

(** *** What the traces hold *)

Lemma response_of_app (l1 l2 : list Event) :
  response_of (l1 ++ l2) =
  match response_of l1 with
  | Some r => Some r
  | None => response_of l2
  end.
Proof.
  induction l1 as [|e l1 IH]; simpl; [reflexivity|].
  destruct e; simpl; auto.
Qed.

Lemma commands_of_app (l1 l2 : list Event) :
  commands_of (l1 ++ l2) = (commands_of l1 ++ commands_of l2)%list.
Proof.
  induction l1 as [|e l1 IH]; simpl; [reflexivity|].
  destruct e; simpl; now rewrite ?IH.
Qed.

Lemma no_response (ok : Event -> bool) (l : list Event) :
  (forall e, ok e = true -> is_response e = false) ->
  forallb ok l = true -> response_of l = None.
Proof.
  intros Hok. induction l as [|e l IH]; simpl; [reflexivity|].
  intros H. apply andb_prop in H as [He Hl]. specialize (Hok e He).
  destruct e; simpl in *; try discriminate; auto.
Qed.

Lemma no_command (ok : Event -> bool) (l : list Event) :
  (forall c, ok (Query c) = false) ->
  forallb ok l = true -> commands_of l = [].
Proof.
  intros Hok. induction l as [|e l IH]; simpl; [reflexivity|].
  intros H. apply andb_prop in H as [He Hl].
  destruct e; simpl in *; auto. now rewrite Hok in He.
Qed.

Lemma adds_asking env message history : adds asking (ask_model env message history).
Proof.
  unfold ask_model.
  apply adds_bind; [now apply adds_pool_query|intros rs].
  apply adds_bind; [apply adds_lift|intros names].
  apply adds_bind; [apply adds_lift|intros prompt].
  apply adds_bind; [apply adds_lift|intros turns].
  apply adds_bind; [now apply adds_axios_post|intros data].
  apply adds_lift.
Qed.

(** *** The three ways the pipeline ends once the model has answered *)

Section Pipeline.
Variable env : Env.
Variables (message history text : value) (st0 st1 st2 : State) (i : ModelIntent).
Hypothesis Hask : ask_model env message history st0 = (Returned text, st1).
Hypothesis Hint : interpret text (answered st1 text) = (Returned i, st2).

Lemma pipeline_start :
  chat_pipeline env message history st0 =
  bind (run_intent i)
       (fun _ => bind (read claudeMessage) (fun r => bind (read queryResult)
          (fun q => respond 200 (chat_body env r q)))) st2.
Proof.
  unfold chat_pipeline. unfold bind at 1. rewrite Hask.
  unfold bind at 1. unfold set_claudeMessage at 1.
  unfold bind at 1. unfold set_queryResult at 1. simpl.
  fold (answered st1 text).
  unfold bind at 1. rewrite interpret_and_run_factors.
  unfold bind at 1. simpl claudeMessage. rewrite Hint.
  reflexivity.
Qed.

Lemma pipeline_no_query :
  requests_query i = false ->
  chat_pipeline env message history st0 =
  (Returned tt,
   mkState (db st1) (pool st1) (response i) VNull
           (trace st2 ++ [Respond 200 (chat_body env (response i) VNull)])).
Proof.
  intros Hq. rewrite pipeline_start.
  destruct (interpret_state _ _ _ _ Hint) as [Hd [Hp [Hc [Hr _]]]]. simpl in *.
  unfold run_intent. rewrite Hq.
  unfold bind, set_claudeMessage, read, respond, emit. simpl.
  now rewrite Hd, Hp, Hr.
Qed.

Lemma pipeline_query_answered rows db' composed :
  requests_query i = true ->
  run_sql (db st1) (query i) = (inr rows, db') ->
  with_results (response i) rows = inr composed ->
  chat_pipeline env message history st0 =
  (Returned tt,
   mkState db' true (VStr composed) rows
           (trace st2 ++ [Query (query i);
                          Respond 200 (chat_body env (VStr composed) rows)])).
Proof.
  intros Hq Hrun Hcomposed. rewrite pipeline_start.
  destruct (interpret_state _ _ _ _ Hint) as [Hd [Hp [Hc [Hr _]]]]. simpl in *.
  assert (Hpool : pool st1 = true).
  { unfold ask_model, bind in Hask. unfold pool_query at 1 in Hask.
    destruct (adds_asking env message history _ _ _ Hask) as [-> _].
    destruct (pool st0); [reflexivity|discriminate]. }
  unfold run_intent. rewrite Hq.
  unfold bind, try_catch, pool_query, set_queryResult, set_claudeMessage, read,
    respond, emit.
  rewrite Hp, Hpool, Hd, Hrun. simpl. rewrite Hcomposed. simpl.
  now rewrite <- app_assoc.
Qed.

(** The store answered and the template literal threw: [queryResult] is
    already assigned, [claudeMessage] is not. *)
Lemma pipeline_query_uncomposed rows db' e :
  requests_query i = true ->
  run_sql (db st1) (query i) = (inr rows, db') ->
  with_results (response i) rows = inl e ->
  chat_pipeline env message history st0 =
  (Returned tt,
   mkState db' true text rows
           (trace st2 ++ [Query (query i); Log not_json;
                          Respond 200 (chat_body env text rows)])).
Proof.
  intros Hq Hrun Hcomposed. rewrite pipeline_start.
  destruct (interpret_state _ _ _ _ Hint) as [Hd [Hp [Hc [Hr _]]]]. simpl in *.
  assert (Hpool : pool st1 = true).
  { unfold ask_model, bind in Hask. unfold pool_query at 1 in Hask.
    destruct (adds_asking env message history _ _ _ Hask) as [-> _].
    destruct (pool st0); [reflexivity|discriminate]. }
  unfold run_intent. rewrite Hq.
  unfold bind, try_catch, pool_query, set_queryResult, set_claudeMessage, read,
    respond, emit.
  rewrite Hp, Hpool, Hd, Hrun. simpl. rewrite Hcomposed. simpl.
  rewrite Hc, <- !app_assoc. reflexivity.
Qed.

Lemma pipeline_query_rejected e db' :
  requests_query i = true ->
  run_sql (db st1) (query i) = (inl e, db') ->
  chat_pipeline env message history st0 =
  (Returned tt,
   mkState db' true text VNull
           (trace st2 ++ [Query (query i); Log not_json;
                          Respond 200 (chat_body env text VNull)])).
Proof.
  intros Hq Hrun. rewrite pipeline_start.
  destruct (interpret_state _ _ _ _ Hint) as [Hd [Hp [Hc [Hr _]]]]. simpl in *.
  assert (Hpool : pool st1 = true).
  { unfold ask_model, bind in Hask. unfold pool_query at 1 in Hask.
    destruct (adds_asking env message history _ _ _ Hask) as [-> _].
    destruct (pool st0); [reflexivity|discriminate]. }
  unfold run_intent. rewrite Hq.
  unfold bind, try_catch, pool_query, set_queryResult, set_claudeMessage, read,
    respond, emit.
  rewrite Hp, Hpool, Hd, Hrun. simpl. rewrite Hc, Hr, <- !app_assoc. reflexivity.
Qed.

End Pipeline.

(** *** How each file wraps the pipeline *)

Section Wrapping.
Variable env : Env.
Variable req : ChatRequest.
Variable store : Store.

Let pipeline := chat_pipeline env (message req) (or_empty (conversationHistory req)).

Lemma server_chat_connects :
  connect_outcome env = None ->
  ServerJs.api_chat env req (start store) =
  try_finally
    (try_catch pipeline
       (fun err => bind (emit (Log "Chat endpoint error:"))
                        (fun _ => respond 500 (failure_body err))))
    (ServerJs.release env) (ServerJs.connected store).
Proof.
  intros Hc.
  unfold ServerJs.api_chat, try_finally, try_catch, bind, ServerJs.getDatabaseConnection,
    sql_connect, bind, emit, set_pool.
  simpl. rewrite Hc. reflexivity.
Qed.

Lemma release_open (st : State) :
  pool st = true -> ServerJs.release env st = (Returned tt, after st (closing env)).
Proof.
  destruct st as [d p c q t]. simpl. intros ->.
  unfold ServerJs.release, bind, read, try_catch, pool_close, bind, emit, closing, after.
  simpl. destruct (close_outcome env); simpl; [|reflexivity].
  now rewrite <- app_assoc.
Qed.

Lemma server_chat_returned (st' : State) :
  connect_outcome env = None ->
  pipeline (ServerJs.connected store) = (Returned tt, st') ->
  ServerJs.api_chat env req (start store) = (Returned tt, after st' (closing env)).
Proof.
  intros Hc H. rewrite (server_chat_connects Hc).
  destruct (adds_chat_pipeline env _ _ _ _ _ H) as [Hp _].
  unfold try_finally, try_catch. fold pipeline. rewrite H.
  now rewrite (release_open st' Hp).
Qed.

Lemma server_chat_thrown (e : Error) (st' : State) :
  connect_outcome env = None ->
  pipeline (ServerJs.connected store) = (Thrown e, st') ->
  ServerJs.api_chat env req (start store) =
  (Returned tt,
   after st' ([Log "Chat endpoint error:"; Respond 500 (failure_body e)]
              ++ closing env)).
Proof.
  intros Hc H. rewrite (server_chat_connects Hc).
  destruct (adds_chat_pipeline env _ _ _ _ _ H) as [Hp _].
  unfold try_finally, try_catch. fold pipeline. rewrite H.
  unfold bind, respond, emit. simpl.
  rewrite release_open by exact Hp.
  unfold after. simpl. now rewrite <- !app_assoc.
Qed.

Lemma server_chat_pending (st' : State) :
  connect_outcome env = None ->
  pipeline (ServerJs.connected store) = (Pending, st') ->
  ServerJs.api_chat env req (start store) = (Pending, st').
Proof.
  intros Hc H. rewrite (server_chat_connects Hc).
  unfold try_finally, try_catch. fold pipeline. now rewrite H.
Qed.

Lemma server_chat_unconnected (e : Error) :
  connect_outcome env = Some e ->
  ServerJs.api_chat env req (start store) =
  (Returned tt,
   after (start store)
         [Connect; Log "Database connection failed:"; Log "Chat endpoint error:";
          Respond 500 (failure_body e)]).
Proof.
  intros Hc.
  unfold ServerJs.api_chat, try_finally, try_catch, bind, ServerJs.getDatabaseConnection,
    sql_connect, ServerJs.release, bind, emit, set_pool, respond, emit, throw, read.
  simpl. rewrite Hc. reflexivity.
Qed.

Lemma long_chat_returned (st st' : State) :
  pipeline st = (Returned tt, st') ->
  LongRunning.api_chat env req st = (Returned tt, st').
Proof.
  intros H. unfold LongRunning.api_chat, try_catch. fold pipeline. now rewrite H.
Qed.

Lemma long_chat_thrown (e : Error) (st st' : State) :
  pipeline st = (Thrown e, st') ->
  LongRunning.api_chat env req st =
  (Returned tt,
   after st' [Log "Chat endpoint error:";
              Respond 500 (VObj [("error", VStr "Internal server error")])]).
Proof.
  intros H. unfold LongRunning.api_chat, try_catch. fold pipeline. rewrite H.
  unfold bind, respond, emit, after. simpl. now rewrite <- !app_assoc.
Qed.

Lemma long_chat_pending (st st' : State) :
  pipeline st = (Pending, st') ->
  LongRunning.api_chat env req st = (Pending, st').
Proof.
  intros H. unfold LongRunning.api_chat, try_catch. fold pipeline. now rewrite H.
Qed.

End Wrapping.

(** *** What has happened when the model's text is in hand *)

Lemma ask_model_returns env message history st0 text st1 :
  ask_model env message history st0 = (Returned text, st1) ->
  pool st1 = true /\ claudeMessage st1 = claudeMessage st0 /\
  queryResult st1 = queryResult st0 /\
  exists prompt turns,
    trace st1 = (trace st0 ++ [Query (VStr tables_sql);
                               Post CLAUDE_API_URL (model_request prompt turns message)
                                    (request_config env)])%list.
Proof.
  unfold ask_model, bind, pool_query, axios_post, bind, emit, request_config.
  destruct st0 as [d p c q t]. simpl.
  destruct p; [|discriminate].
  destruct (run_sql d (VStr tables_sql)) as [[e|rs] d']; [discriminate|].
  destruct (map_TABLE_NAME rs) as [e|names]; [discriminate|]. simpl.
  destruct (systemPrompt names) as [e|prompt]; [discriminate|]. simpl.
  destruct (spread history) as [e|turns]; [discriminate|]. simpl.
  destruct (upstream env _) as [data|e|]; simpl; try discriminate.
  destruct (content0_text data) as [e|t']; simpl; [discriminate|].
  intros H. inversion H; subst; simpl. repeat split.
  exists prompt, turns. now rewrite <- app_assoc.
Qed.

Lemma logs_hold_nothing (logs : list Event) :
  forallb is_log logs = true -> response_of logs = None /\ commands_of logs = [].
Proof.
  intros H. split.
  - apply (no_response is_log); [intros []; simpl; congruence | exact H].
  - apply (no_command is_log); [reflexivity | exact H].
Qed.

Lemma closing_holds_nothing env :
  response_of (closing env) = None /\ commands_of (closing env) = [].
Proof. unfold closing. destruct (close_outcome env); simpl; auto. Qed.

(** The response and the commands of a chat request of server.js that got
    the model's text: [events] is what followed the interpretation. *)
Lemma served env command url body config logs events :
  forallb is_log logs = true ->
  let whole := ((([Connect; Query command; Post url body config] ++ logs)
                   ++ events) ++ closing env)%list in
  response_of whole = response_of events /\
  commands_of whole = command :: commands_of events.
Proof.
  intros Hl whole. subst whole.
  destruct (logs_hold_nothing logs Hl) as [Hr Hc].
  destruct (closing_holds_nothing env) as [Hr' Hc'].
  rewrite !response_of_app, !commands_of_app, Hc, Hc'. simpl.
  rewrite Hr, Hr', app_nil_r. split; [|reflexivity].
  now destruct (response_of events).
Qed.

(** *** A chat request of server.js after the model has answered *)

Section ServerAnswers.
Variable env : Env.
Variable req : ChatRequest.
Variable store : Store.
Variables (text : value) (st1 st2 : State) (i : ModelIntent).
Hypothesis Hconnect : connect_outcome env = None.
Hypothesis Hask :
  ask_model env (message req) (or_empty (conversationHistory req))
            (ServerJs.connected store) = (Returned text, st1).
Hypothesis Hint : interpret text (answered st1 text) = (Returned i, st2).

Lemma server_trace_so_far :
  exists prompt turns logs,
    forallb is_log logs = true /\
    trace st2 =
      ([Connect; Query (VStr tables_sql);
        Post CLAUDE_API_URL (model_request prompt turns (message req)) (request_config env)]
       ++ logs)%list.
Proof.
  destruct (ask_model_returns _ _ _ _ _ _ Hask) as [_ [_ [_ [names [turns Ht]]]]].
  destruct (interpret_state _ _ _ _ Hint) as [_ [_ [_ [_ [logs [Hl Hlogs]]]]]].
  exists names, turns, logs. split; [exact Hlogs|].
  rewrite Hl. simpl. now rewrite Ht.
Qed.

Lemma server_no_query :
  requests_query i = false ->
  exists st',
    ServerJs.api_chat env req (start store) = (Returned tt, st') /\
    response_of (trace st') = Some (200, chat_body env (response i) VNull) /\
    commands_of (trace st') = [VStr tables_sql].
Proof.
  intros Hq. eexists. split.
  - exact (server_chat_returned env req store _ Hconnect
             (pipeline_no_query env _ _ _ _ _ _ _ Hask Hint Hq)).
  - destruct server_trace_so_far as [names [turns [logs [Hl Ht]]]].
    simpl. rewrite Ht. now apply served.
Qed.

Lemma server_query_answered rows db' composed :
  requests_query i = true ->
  run_sql (db st1) (query i) = (inr rows, db') ->
  with_results (response i) rows = inr composed ->
  exists st',
    ServerJs.api_chat env req (start store) = (Returned tt, st') /\
    response_of (trace st') = Some (200, chat_body env (VStr composed) rows) /\
    commands_of (trace st') = [VStr tables_sql; query i] /\
    db st' = db'.
Proof.
  intros Hq Hrun Hcomposed. eexists. split.
  - exact (server_chat_returned env req store _ Hconnect
             (pipeline_query_answered env _ _ _ _ _ _ _ Hask Hint rows db' composed
                Hq Hrun Hcomposed)).
  - destruct server_trace_so_far as [names [turns [logs [Hl Ht]]]].
    simpl. rewrite Ht. split; [now apply served | split; [now apply served | reflexivity]].
Qed.

Lemma server_query_uncomposed rows db' e :
  requests_query i = true ->
  run_sql (db st1) (query i) = (inr rows, db') ->
  with_results (response i) rows = inl e ->
  exists st',
    ServerJs.api_chat env req (start store) = (Returned tt, st') /\
    response_of (trace st') = Some (200, chat_body env text rows) /\
    commands_of (trace st') = [VStr tables_sql; query i] /\
    db st' = db' /\
    In (Log not_json) (trace st').
Proof.
  intros Hq Hrun Hcomposed. eexists. split.
  - exact (server_chat_returned env req store _ Hconnect
             (pipeline_query_uncomposed env _ _ _ _ _ _ _ Hask Hint rows db' e
                Hq Hrun Hcomposed)).
  - destruct server_trace_so_far as [names [turns [logs [Hl Ht]]]].
    simpl. rewrite Ht.
    split; [now apply served | split; [now apply served | split; [reflexivity|]]].
    rewrite !in_app_iff. left. right. simpl. auto.
Qed.

Lemma server_query_rejected e db' :
  requests_query i = true ->
  run_sql (db st1) (query i) = (inl e, db') ->
  exists st',
    ServerJs.api_chat env req (start store) = (Returned tt, st') /\
    response_of (trace st') = Some (200, chat_body env text VNull) /\
    commands_of (trace st') = [VStr tables_sql; query i] /\
    In (Log not_json) (trace st').
Proof.
  intros Hq Hrun. eexists. split.
  - exact (server_chat_returned env req store _ Hconnect
             (pipeline_query_rejected env _ _ _ _ _ _ _ Hask Hint e db' Hq Hrun)).
  - destruct server_trace_so_far as [names [turns [logs [Hl Ht]]]].
    simpl. rewrite Ht. split; [|split].
    + now apply served.
    + now apply served.
    + rewrite !in_app_iff. left. right. simpl. auto.
Qed.

End ServerAnswers.

(** *** A chat request of the long-running variant *)

Lemma long_no_query env req st0 text st1 st2 i :
  response_of (trace st0) = None ->
  ask_model env (message req) (or_empty (conversationHistory req)) st0
    = (Returned text, st1) ->
  interpret text (answered st1 text) = (Returned i, st2) ->
  requests_query i = false ->
  exists st',
    LongRunning.api_chat env req st0 = (Returned tt, st') /\
    response_of (trace st') = Some (200, chat_body env (response i) VNull) /\
    commands_of (trace st') = (commands_of (trace st0) ++ [VStr tables_sql])%list.
Proof.
  intros H0 Hask Hint Hq. eexists. split.
  - exact (long_chat_returned env req _ _
             (pipeline_no_query env _ _ _ _ _ _ _ Hask Hint Hq)).
  - destruct (ask_model_returns _ _ _ _ _ _ Hask) as [_ [_ [_ [names [turns Ht]]]]].
    destruct (interpret_state _ _ _ _ Hint) as [_ [_ [_ [_ [logs [Hl Hlogs]]]]]].
    destruct (logs_hold_nothing logs Hlogs) as [Hr Hc].
    simpl in *. rewrite Hl, Ht.
    rewrite !response_of_app, !commands_of_app, H0, Hr, Hc. simpl.
    now rewrite !app_nil_r.
Qed.

(** *** Converting to text and rendering *)

Lemma join_concat (sep : string) (parts : list string) :
  join sep parts = String.concat sep parts.
Proof.
  induction parts as [|p parts IH]; [reflexivity|].
  destruct parts as [|p' parts]; [reflexivity|].
  change (p ++ sep ++ join sep (p' :: parts) = p ++ sep ++ String.concat sep (p' :: parts)).
  now rewrite IH.
Qed.

Lemma toString_array (items : list value) :
  toString (VArr items) = Array_join "," items.
Proof.
  unfold Array_join. simpl.
  assert (H : (fix texts (xs : list value) : Error + list string :=
                 match xs with
                 | [] => inr []
                 | x :: rest =>
                     match (match x with
                            | VUndefined | VNull => inr EmptyString
                            | _ => toString x
                            end) with
                     | inl e => inl e
                     | inr t =>
                         match texts rest with
                         | inl e => inl e
                         | inr ts => inr (t :: ts)
                         end
                     end
                 end) items = element_texts items).
  { induction items as [|x items IH]; [reflexivity|].
    simpl. rewrite IH. unfold join_element. destruct x; reflexivity. }
  now rewrite H.
Qed.



(** JSON.stringify always gives the template literal something it can
    convert. *)
Lemma toString_rendered (rows : value) :
  exists rendered, toString (JSON_stringify2 rows) = inr rendered.
Proof.
  unfold JSON_stringify2. destruct (stringify EmptyString rows); eexists; reflexivity.
Qed.

Lemma with_results_eq (response rows : value) (rendered : string) :
  toString (JSON_stringify2 rows) = inr rendered ->
  with_results response rows =
  match toString response with
  | inl e => inl e
  | inr head => inr (head ++ nl ++ nl ++ "Query Results:" ++ nl ++ rendered)
  end.
Proof. intros H. unfold with_results. now rewrite H. Qed.

Lemma stringify_scalar (indent : string) (v : value) :
  scalar v = true -> stringify indent v = Some (cell_text v).
Proof. destruct v as [| |[]| | | |]; simpl; intros H; try discriminate; reflexivity. Qed.

Lemma flat_map_cells (inner : string) (record : list (string * value)) :
  forallb (fun kv => scalar (snd kv)) record = true ->
  flat_map (fun kv => match stringify inner (snd kv) with
                      | Some t => [quote (fst kv) ++ ": " ++ t]
                      | None => []
                      end) record =
  map (fun kv => quote (fst kv) ++ ": " ++ cell_text (snd kv)) record.
Proof.
  induction record as [|kv record IH]; [reflexivity|].
  cbn [forallb flat_map map]. intros H. apply andb_prop in H as [Hkv Hrest].
  now rewrite (stringify_scalar inner (snd kv) Hkv), (IH Hrest).
Qed.

(** One row: an object of scalars, written at indentation [indent]. *)
Lemma stringify_record (indent : string) (record : list (string * value)) :
  forallb (fun kv => scalar (snd kv)) record = true ->
  stringify indent (VObj record) =
  Some match record with
       | [] => "{}"
       | _ => "{" ++ nl ++ (indent ++ "  ") ++
              String.concat ("," ++ nl ++ (indent ++ "  "))
                (map (fun kv => quote (fst kv) ++ ": " ++ cell_text (snd kv)) record)
              ++ nl ++ indent ++ "}"
       end.
Proof.
  intros H. cbn [stringify]. rewrite (flat_map_cells _ record H).
  destruct record as [|kv record]; [reflexivity|].
  cbn [map]. now rewrite join_concat.
Qed.

(** A recordset of such rows. *)
Lemma stringify_recordset (records : list (list (string * value))) :
  forallb (fun record => forallb (fun kv => scalar (snd kv)) record) records = true ->
  stringify EmptyString (VArr (map VObj records)) =
  Some match records with
       | [] => "[]"
       | _ => "[" ++ nl ++ "  " ++
              String.concat ("," ++ nl ++ "  ")
                (map (fun record =>
                        match record with
                        | [] => "{}"
                        | _ => "{" ++ nl ++ "    " ++
                               String.concat ("," ++ nl ++ "    ")
                                 (map (fun kv => quote (fst kv) ++ ": " ++ cell_text (snd kv))
                                      record)
                               ++ nl ++ "  }"
                        end) records)
              ++ nl ++ "]"
       end.
Proof.
  intros H. cbn [stringify].
  assert (Hmap :
    map (fun x => match stringify (EmptyString ++ "  ") x with
                  | Some t => t
                  | None => "null"
                  end) (map VObj records) =
    map (fun record =>
           match record with
           | [] => "{}"
           | _ => "{" ++ nl ++ "    " ++
                  String.concat ("," ++ nl ++ "    ")
                    (map (fun kv => quote (fst kv) ++ ": " ++ cell_text (snd kv)) record)
                  ++ nl ++ "  }"
           end) records).
  { clear - H. induction records as [|record records IH]; [reflexivity|].
    simpl in H. apply andb_prop in H as [Hrecord Hrest].
    cbn [map]. rewrite (IH Hrest), (stringify_record _ record Hrecord).
    destruct record; reflexivity. }
  rewrite Hmap. destruct records as [|record records]; [reflexivity|].
  cbn [map]. now rewrite join_concat.
Qed.

End Laws.

(** ** Composing the response *)

(** C5. When the interpreted intent asks for no query, the chat request of
    server.js answers 200 with a body whose [response] is the intent's
    [response], unchanged, whose [queryResult] is null and whose
    [timestamp] is the clock's reading; the catalog lookup is the only
    command the store has received. *)
Theorem no_query_response_unchanged
  {JN : JsNumber} {P : Platform} (env : Env) (req : ChatRequest) (store : Store)
  (text : value) (st1 st2 : State) (i : ModelIntent) :
  connect_outcome env = None ->
  ask_model env (message req) (or_empty (conversationHistory req))
            (ServerJs.connected store) = (Returned text, st1) ->
  interpret text (answered st1 text) = (Returned i, st2) ->
  requests_query i = false ->
  exists st',
    ServerJs.api_chat env req (start store) = (Returned tt, st') /\
    response_of (trace st') =
      Some (200, VObj [("response", response i);
                       ("queryResult", VNull);
                       ("timestamp", VStr (now env))]) /\
    commands_of (trace st') = [VStr tables_sql].
Proof.
  intros Hc Hask Hint Hq.
  exact (server_no_query env req store text st1 st2 i Hc Hask Hint Hq).
Qed.

Section ScenarioD.
#[local] Existing Instance Concrete.integers.
#[local] Existing Instance Concrete.ascii_platform.

(** Scenario D: the model says [I don't know]. *)
Lemma no_query_response_unchanged_witness :
  exists st',
    Concrete.server_chat (Concrete.answering "I don't know") Concrete.hello
      = (Returned tt, st') /\
    response_of (trace st') =
      Some (200, VObj [("response", VStr "I don't know");
                       ("queryResult", VNull);
                       ("timestamp", VStr "2024-05-01T12:00:00.000Z")]) /\
    commands_of (trace st') = [VStr tables_sql].
Proof.
  pose (env := Concrete.answering "I don't know").
  pose (st1 := snd (ask_model env (message Concrete.hello)
                      (or_empty (conversationHistory Concrete.hello))
                      (ServerJs.connected Concrete.shop))).
  pose (st2 := snd (interpret (VStr "I don't know") (answered st1 (VStr "I don't know")))).
  apply (no_query_response_unchanged (P := Concrete.ascii_platform) env Concrete.hello
           Concrete.shop (VStr "I don't know") st1 st2
           (fallback (VStr "I don't know")));
    reflexivity.
Defined.

End ScenarioD.

(** C9. When the model's text parses to a value whose [needsQuery] is
    truthy and whose [query] is absent, empty or falsy in another way, the
    chat request of server.js sends nothing to the store beyond the catalog
    lookup and answers 200 with [queryResult] null and [response] equal to
    the parsed [response]. *)
Theorem falsy_query_not_executed
  {JN : JsNumber} {P : Platform} (env : Env) (req : ChatRequest) (store : Store)
  (text : value) (st1 : State) (written : string) (parsed : value) :
  connect_outcome env = None ->
  ask_model env (message req) (or_empty (conversationHistory req))
            (ServerJs.connected store) = (Returned text, st1) ->
  toString text = inr written ->
  JSON_parse written = inr parsed ->
  truthy (field parsed "needsQuery") = true ->
  truthy (field parsed "query") = false ->
  exists st',
    ServerJs.api_chat env req (start store) = (Returned tt, st') /\
    response_of (trace st') =
      Some (200, VObj [("response", field parsed "response");
                       ("queryResult", VNull);
                       ("timestamp", VStr (now env))]) /\
    commands_of (trace st') = [VStr tables_sql].
Proof.
  intros Hc Hask Hw Hp Hn Hq.
  rewrite <- (parse_written text written Hw) in Hp.
  assert (Hr : readable parsed = true).
  { destruct parsed; try reflexivity; discriminate Hn. }
  apply (server_no_query env req store text st1 (answered st1 text) (as_is parsed)
           Hc Hask (interpret_readable text parsed _ Hp Hr)).
  unfold requests_query. simpl. now rewrite Hn, Hq.
Qed.

Section EmptyQuery.
#[local] Existing Instance Concrete.integers.
#[local] Existing Instance Concrete.ascii_platform.

(** The model asks for a query and gives the empty string. *)
Lemma falsy_query_not_executed_witness :
  exists st',
    Concrete.server_chat (Concrete.answering Concrete.empty_query) Concrete.hello
      = (Returned tt, st') /\
    response_of (trace st') =
      Some (200, VObj [("response", VStr "Which table do you mean?");
                       ("queryResult", VNull);
                       ("timestamp", VStr "2024-05-01T12:00:00.000Z")]) /\
    commands_of (trace st') = [VStr tables_sql].
Proof.
  apply (falsy_query_not_executed (P := Concrete.ascii_platform)
           (Concrete.answering Concrete.empty_query) Concrete.hello Concrete.shop
           (VStr Concrete.empty_query)
           (snd (ask_model (Concrete.answering Concrete.empty_query)
                   (message Concrete.hello)
                   (or_empty (conversationHistory Concrete.hello))
                   (ServerJs.connected Concrete.shop)))
           Concrete.empty_query
           (VObj [("needsQuery", VBool true); ("query", VStr EmptyString);
                  ("response", VStr "Which table do you mean?")]));
    reflexivity.
Defined.

End EmptyQuery.

(** C10, as the code has it. When the model's text parses to a value other
    than null that has no [response] and asks for no query, the body of the
    200 response holds undefined under [response], in both files. The raw
    text is kept not only when JSON.parse throws: a parsed null, whose
    properties cannot be read, ends in the same catch clause. *)
Theorem missing_response_is_undefined
  {JN : JsNumber} {P : Platform} (env : Env) (req : ChatRequest)
  (text : value) (written : string) (parsed : value) :
  toString text = inr written ->
  JSON_parse written = inr parsed ->
  readable parsed = true ->
  field parsed "response" = VUndefined ->
  requests_query (as_is parsed) = false ->
  (forall store st1,
     connect_outcome env = None ->
     ask_model env (message req) (or_empty (conversationHistory req))
               (ServerJs.connected store) = (Returned text, st1) ->
     exists st',
       ServerJs.api_chat env req (start store) = (Returned tt, st') /\
       response_of (trace st') =
         Some (200, VObj [("response", VUndefined);
                          ("queryResult", VNull);
                          ("timestamp", VStr (now env))])) /\
  (forall st0 st1,
     response_of (trace st0) = None ->
     ask_model env (message req) (or_empty (conversationHistory req)) st0
       = (Returned text, st1) ->
     exists st',
       LongRunning.api_chat env req st0 = (Returned tt, st') /\
       response_of (trace st') =
         Some (200, VObj [("response", VUndefined);
                          ("queryResult", VNull);
                          ("timestamp", VStr (now env))])).
Proof.
  intros Hw Hp Hr Hf Hq.
  rewrite <- (parse_written text written Hw) in Hp. split.
  - intros store st1 Hc Hask.
    destruct (server_no_query env req store text st1 (answered st1 text) (as_is parsed)
                Hc Hask (interpret_readable text parsed _ Hp Hr) Hq)
      as [st' [Hrun [Hresp _]]].
    exists st'. split; [exact Hrun|]. rewrite Hresp. unfold chat_body. simpl.
    now rewrite Hf.
  - intros st0 st1 H0 Hask.
    destruct (long_no_query env req st0 text st1 (answered st1 text) (as_is parsed)
                H0 Hask (interpret_readable text parsed _ Hp Hr) Hq)
      as [st' [Hrun [Hresp _]]].
    exists st'. split; [exact Hrun|]. rewrite Hresp. unfold chat_body. simpl.
    now rewrite Hf.
Qed.

Section MissingResponse.
#[local] Existing Instance Concrete.integers.
#[local] Existing Instance Concrete.ascii_platform.

(** The model answers with an object that only says that no query is
    needed. *)
Lemma missing_response_is_undefined_witness :
  (exists st',
     Concrete.server_chat (Concrete.answering Concrete.no_response) Concrete.hello
       = (Returned tt, st') /\
     response_of (trace st') =
       Some (200, VObj [("response", VUndefined);
                        ("queryResult", VNull);
                        ("timestamp", VStr "2024-05-01T12:00:00.000Z")])) /\
  (exists st',
     Concrete.long_chat (Concrete.answering Concrete.no_response) Concrete.hello
       = (Returned tt, st') /\
     response_of (trace st') =
       Some (200, VObj [("response", VUndefined);
                        ("queryResult", VNull);
                        ("timestamp", VStr "2024-05-01T12:00:00.000Z")])).
Proof.
  pose proof (missing_response_is_undefined (P := Concrete.ascii_platform)
                (Concrete.answering Concrete.no_response) Concrete.hello
                (VStr Concrete.no_response) Concrete.no_response
                (VObj [("needsQuery", VBool false)])
                eq_refl eq_refl eq_refl eq_refl eq_refl) as [Hserver Hlong].
  split.
  - apply (Hserver Concrete.shop
             (snd (ask_model (Concrete.answering Concrete.no_response)
                     (message Concrete.hello)
                     (or_empty (conversationHistory Concrete.hello))
                     (ServerJs.connected Concrete.shop))));
      reflexivity.
  - apply (Hlong (LongRunning.booted (Concrete.answering Concrete.no_response)
                    Concrete.shop)
             (snd (ask_model (Concrete.answering Concrete.no_response)
                     (message Concrete.hello)
                     (or_empty (conversationHistory Concrete.hello))
                     (LongRunning.booted (Concrete.answering Concrete.no_response)
                        Concrete.shop))));
      reflexivity.
Defined.

(** C10 as stated fails on the text [null]: it is valid JSON, it has no
    [response], it asks for no query, and the answer carries the string
    [null], the raw text, under [response]. *)
Lemma null_answer_keeps_raw_text :
  ~ (forall (text : string) (parsed : value),
       Concrete.json_parse text = inr parsed ->
       field parsed "response" = VUndefined ->
       requests_query (as_is parsed) = false ->
       response_of (trace (snd (Concrete.server_chat (Concrete.answering text)
                                  Concrete.hello))) =
       Some (200, VObj [("response", VUndefined);
                        ("queryResult", VNull);
                        ("timestamp", VStr "2024-05-01T12:00:00.000Z")])).
Proof.
  intros claim.
  specialize (claim "null" VNull eq_refl eq_refl eq_refl).
  assert (run :
    response_of (trace (snd (Concrete.server_chat (Concrete.answering "null")
                               Concrete.hello))) =
    Some (200, VObj [("response", VStr "null");
                     ("queryResult", VNull);
                     ("timestamp", VStr "2024-05-01T12:00:00.000Z")]))
    by reflexivity.
  rewrite run in claim. discriminate claim.
Qed.

End MissingResponse.

(** C6, as the code has it. When the intent asks for a query and the store
    answers it with [rows], the chat request of server.js answers 200 with
    [queryResult] set to [rows], whatever else happens. Its [response] is
    the intent's [response] converted to text (the word [undefined] when
    there is none), a blank line, the line [Query Results:] and [rows]
    written as JSON indented by two spaces: a recordset of rows of scalars
    is laid out with one row to each object and one column to each line,
    and the word [undefined] stands for a result without a recordset.
    When the intent's [response] cannot be converted to text, as an object
    with an own property [toString] cannot, the template literal throws
    after [queryResult] was assigned, and the answer carries the raw text
    of the model with the rows. The intent's [explanation] takes no part
    in any of it. *)
Theorem query_results_appended_to_response
  {JN : JsNumber} {P : Platform} (env : Env) (req : ChatRequest) (store : Store)
  (text : value) (st1 st2 : State) (i : ModelIntent) (rows : value) (db' : Store) :
  connect_outcome env = None ->
  ask_model env (message req) (or_empty (conversationHistory req))
            (ServerJs.connected store) = (Returned text, st1) ->
  interpret text (answered st1 text) = (Returned i, st2) ->
  requests_query i = true ->
  run_sql (db st1) (query i) = (inr rows, db') ->
  exists st' answer rendered,
    ServerJs.api_chat env req (start store) = (Returned tt, st') /\
    response_of (trace st') =
      Some (200, VObj [("response", answer);
                       ("queryResult", rows);
                       ("timestamp", VStr (now env))]) /\
    commands_of (trace st') = [VStr tables_sql; query i] /\
    (let appended := nl ++ nl ++ "Query Results:" ++ nl ++ rendered in
     match response i with
     | VUndefined => answer = VStr ("undefined" ++ appended)
     | VNull => answer = VStr ("null" ++ appended)
     | VBool true => answer = VStr ("true" ++ appended)
     | VBool false => answer = VStr ("false" ++ appended)
     | VNum n => answer = VStr (number_toString n ++ appended)
     | VStr s => answer = VStr (s ++ appended)
     | VObj props =>
         if existsb (fun kv => String.eqb (fst kv) "toString") props
         then answer = text /\ In (Log not_json) (trace st')
         else answer = VStr ("[object Object]" ++ appended)
     | VArr items =>
         match Array_join "," items with
         | inr joined => answer = VStr (joined ++ appended)
         | inl _ => answer = text /\ In (Log not_json) (trace st')
         end
     end) /\
    toString (JSON_stringify2 rows) = inr rendered /\
    (rows = VUndefined -> rendered = "undefined") /\
    (forall records : list (list (string * value)),
       rows = VArr (map VObj records) ->
       forallb (fun record => forallb (fun kv => scalar (snd kv)) record) records = true ->
       rendered =
       match records with
       | [] => "[]"
       | _ => "[" ++ nl ++ "  " ++
              String.concat ("," ++ nl ++ "  ")
                (map (fun record =>
                        match record with
                        | [] => "{}"
                        | _ => "{" ++ nl ++ "    " ++
                               String.concat ("," ++ nl ++ "    ")
                                 (map (fun kv => quote (fst kv) ++ ": " ++ cell_text (snd kv))
                                      record)
                               ++ nl ++ "  }"
                        end) records)
              ++ nl ++ "]"
       end).
Proof.
  intros Hc Hask Hint Hq Hrun.
  destruct (toString_rendered rows) as [rendered Hr].
  pose proof (with_results_eq (response i) rows rendered Hr) as Hw.
  assert (Hlayout :
    forall records : list (list (string * value)),
      rows = VArr (map VObj records) ->
      forallb (fun record => forallb (fun kv => scalar (snd kv)) record) records = true ->
      rendered =
      match records with
      | [] => "[]"
      | _ => "[" ++ nl ++ "  " ++
             String.concat ("," ++ nl ++ "  ")
               (map (fun record =>
                       match record with
                       | [] => "{}"
                       | _ => "{" ++ nl ++ "    " ++
                              String.concat ("," ++ nl ++ "    ")
                                (map (fun kv => quote (fst kv) ++ ": " ++ cell_text (snd kv))
                                     record)
                              ++ nl ++ "  }"
                       end) records)
             ++ nl ++ "]"
      end).
  { intros records Hrows Hflat. subst rows. unfold JSON_stringify2 in Hr.
    rewrite (stringify_recordset records Hflat) in Hr. simpl in Hr.
    now inversion Hr. }
  assert (Hnone : rows = VUndefined -> rendered = "undefined").
  { intros ->. simpl in Hr. now inversion Hr. }
  destruct (toString (response i)) as [e|head] eqn:Hts.
  - destruct (server_query_uncomposed env req store text st1 st2 i Hc Hask Hint
                rows db' e Hq Hrun Hw) as [st' [H1 [H2 [H3 [_ H5]]]]].
    exists st', text, rendered.
    split; [exact H1|]. split; [exact H2|]. split; [exact H3|].
    split; [|split; [exact Hr|split; [exact Hnone|exact Hlayout]]].
    cbv zeta. destruct (response i) as [| |[]|n|s|items|props];
      try discriminate Hts.
    + rewrite toString_array in Hts. rewrite Hts. now split.
    + simpl in Hts. unfold has_own in Hts.
      destruct (existsb _ props); [now split|discriminate Hts].
  - destruct (server_query_answered env req store text st1 st2 i Hc Hask Hint
                rows db' _ Hq Hrun Hw) as [st' [H1 [H2 [H3 _]]]].
    exists st', (VStr (head ++ nl ++ nl ++ "Query Results:" ++ nl ++ rendered)), rendered.
    split; [exact H1|]. split; [exact H2|]. split; [exact H3|].
    split; [|split; [exact Hr|split; [exact Hnone|exact Hlayout]]].
    cbv zeta. destruct (response i) as [| |[]|n|s|items|props];
      try (simpl in Hts; inversion Hts; reflexivity).
    + rewrite toString_array in Hts. now rewrite Hts.
    + simpl in Hts. unfold has_own in Hts.
      destruct (existsb _ props); [discriminate Hts|]. now inversion Hts.
Qed.

Section ScenarioE.
#[local] Existing Instance Concrete.integers.
#[local] Existing Instance Concrete.ascii_platform.

(** Scenario E: the model asks to count the orders and the store returns
    one row whose only column has the empty name and holds 5. Then the
    same with a [response] that cannot be converted to text. *)
Lemma query_results_appended_to_response_witness :
  (exists st',
     Concrete.server_chat (Concrete.answering Concrete.scenario_E) Concrete.hello
       = (Returned tt, st') /\
     response_of (trace st') =
       Some (200,
             VObj [("response",
                    VStr ("here" ++ nl ++ nl ++ "Query Results:" ++ nl
                            ++ "[" ++ nl
                            ++ "  {" ++ nl
                            ++ "    " ++ dquote ++ dquote ++ ": 5" ++ nl
                            ++ "  }" ++ nl
                            ++ "]"));
                   ("queryResult",
                    VArr [VObj [(EmptyString, VNum (JN := Concrete.integers) 5%Z)]]);
                   ("timestamp", VStr "2024-05-01T12:00:00.000Z")]) /\
     commands_of (trace st') = [VStr tables_sql; VStr Concrete.count_orders]) /\
  (exists st',
     Concrete.server_chat (Concrete.answering Concrete.unconvertible) Concrete.hello
       = (Returned tt, st') /\
     response_of (trace st') =
       Some (200,
             VObj [("response", VStr Concrete.unconvertible);
                   ("queryResult",
                    VArr [VObj [(EmptyString, VNum (JN := Concrete.integers) 5%Z)]]);
                   ("timestamp", VStr "2024-05-01T12:00:00.000Z")]) /\
     In (Log not_json) (trace st')).
Proof.
  split.
  - destruct (query_results_appended_to_response (P := Concrete.ascii_platform)
                (Concrete.answering Concrete.scenario_E) Concrete.hello Concrete.shop
                (VStr Concrete.scenario_E)
                (snd (ask_model (Concrete.answering Concrete.scenario_E)
                        (message Concrete.hello)
                        (or_empty (conversationHistory Concrete.hello))
                        (ServerJs.connected Concrete.shop)))
                (answered
                   (snd (ask_model (Concrete.answering Concrete.scenario_E)
                           (message Concrete.hello)
                           (or_empty (conversationHistory Concrete.hello))
                           (ServerJs.connected Concrete.shop)))
                   (VStr Concrete.scenario_E))
                (as_is (VObj [("needsQuery", VBool true);
                              ("query", VStr Concrete.count_orders);
                              ("response", VStr "here")]))
                (VArr [VObj [(EmptyString, VNum (JN := Concrete.integers) 5%Z)]])
                Concrete.shop eq_refl eq_refl eq_refl eq_refl eq_refl)
      as [st' [answer [rendered [Hrun [Hresp [Hcmd [Hanswer [_ [_ Hlayout]]]]]]]]].
    exists st'. split; [exact Hrun|]. split; [|exact Hcmd].
    pose proof (Hlayout [[(EmptyString, VNum (JN := Concrete.integers) 5%Z)]]
                  eq_refl eq_refl) as Hrendered.
    change (answer = VStr ("here" ++ nl ++ nl ++ "Query Results:" ++ nl ++ rendered))
      in Hanswer.
    rewrite Hresp, Hanswer, Hrendered. reflexivity.
  - destruct (query_results_appended_to_response (P := Concrete.ascii_platform)
                (Concrete.answering Concrete.unconvertible) Concrete.hello Concrete.shop
                (VStr Concrete.unconvertible)
                (snd (ask_model (Concrete.answering Concrete.unconvertible)
                        (message Concrete.hello)
                        (or_empty (conversationHistory Concrete.hello))
                        (ServerJs.connected Concrete.shop)))
                (answered
                   (snd (ask_model (Concrete.answering Concrete.unconvertible)
                           (message Concrete.hello)
                           (or_empty (conversationHistory Concrete.hello))
                           (ServerJs.connected Concrete.shop)))
                   (VStr Concrete.unconvertible))
                (as_is (VObj [("needsQuery", VBool true);
                              ("query", VStr Concrete.count_orders);
                              ("response",
                               VObj [("toString", VNum (JN := Concrete.integers) 1%Z)])]))
                (VArr [VObj [(EmptyString, VNum (JN := Concrete.integers) 5%Z)]])
                Concrete.shop eq_refl eq_refl eq_refl eq_refl eq_refl)
      as [st' [answer [rendered [Hrun [Hresp [_ [Hanswer _]]]]]]].
    change (answer = VStr Concrete.unconvertible /\ In (Log not_json) (trace st'))
      in Hanswer.
    destruct Hanswer as [Hanswer Hlog].
    exists st'. split; [exact Hrun|]. split; [|exact Hlog].
    rewrite Hresp, Hanswer. reflexivity.
Defined.

(** C6 as stated fails where it lets [explanation] stand in for
    [response]. With both present the answer begins with [response] and
    not with [explanation]; with only [explanation] present the answer
    begins with the word [undefined]. *)
Lemma explanation_is_never_used :
  ~ (forall (text : string) (parsed : value) (explained : string),
       Concrete.json_parse text = inr parsed ->
       requests_query (as_is parsed) = true ->
       explanation (as_is parsed) = VStr explained ->
       exists body rendered,
         response_of (trace (snd (Concrete.server_chat (Concrete.answering text)
                                    Concrete.hello))) = Some (200, body) /\
         field body "response" = VStr (explained ++ rendered))
  /\
  ~ (forall (text : string) (parsed : value) (explained : string),
       Concrete.json_parse text = inr parsed ->
       requests_query (as_is parsed) = true ->
       response (as_is parsed) = VUndefined ->
       explanation (as_is parsed) = VStr explained ->
       exists body rendered,
         response_of (trace (snd (Concrete.server_chat (Concrete.answering text)
                                    Concrete.hello))) = Some (200, body) /\
         field body "response" = VStr (explained ++ rendered)).
Proof.
  pose (rows := VArr [VObj [(EmptyString, VNum (JN := Concrete.integers) 5%Z)]]).
  pose (rendered_rows := "[" ++ nl ++ "  {" ++ nl ++ "    " ++ dquote ++ dquote ++ ": 5"
                           ++ nl ++ "  }" ++ nl ++ "]").
  split; intros claim.
  - destruct (claim Concrete.explanation_and_response
                (VObj [("needsQuery", VBool true);
                       ("query", VStr Concrete.count_orders);
                       ("explanation", VStr "Counting the orders");
                       ("response", VStr "here")])
                "Counting the orders" eq_refl eq_refl eq_refl)
      as [body [rendered [Hresp Hbody]]].
    assert (resp :
      response_of (trace (snd (Concrete.server_chat
                                 (Concrete.answering Concrete.explanation_and_response)
                                 Concrete.hello))) =
      Some (200, chat_body (Concrete.answering Concrete.explanation_and_response)
                   (VStr ("here" ++ nl ++ nl ++ "Query Results:" ++ nl ++ rendered_rows))
                   rows)) by reflexivity.
    rewrite resp in Hresp. injection Hresp as <-. discriminate Hbody.
  - destruct (claim Concrete.explanation_only
                (VObj [("needsQuery", VBool true);
                       ("query", VStr Concrete.count_orders);
                       ("explanation", VStr "Counting the orders")])
                "Counting the orders" eq_refl eq_refl eq_refl eq_refl)
      as [body [rendered [Hresp Hbody]]].
    assert (resp :
      response_of (trace (snd (Concrete.server_chat
                                 (Concrete.answering Concrete.explanation_only)
                                 Concrete.hello))) =
      Some (200, chat_body (Concrete.answering Concrete.explanation_only)
                   (VStr ("undefined" ++ nl ++ nl ++ "Query Results:" ++ nl
                            ++ rendered_rows))
                   rows)) by reflexivity.
    rewrite resp in Hresp. injection Hresp as <-. discriminate Hbody.
Qed.

End ScenarioE.

(** ** Interpreting the model's text *)

(** C3, as the code has it. Interpreting a text never raises. It yields the
    fallback intent (no query, the raw text as the answer) when JSON.parse
    throws and also when JSON.parse returns null, whose properties cannot
    be read. For every other parsed value, object or not, it yields the
    properties of that value as they are, [query] included, absent ones as
    undefined. What the model gave as text need not be a string: it is
    converted to text before it is parsed, and when that conversion throws
    the result is the fallback intent as well. The inner try statement of
    the chat handler is this interpretation followed by [run_intent],
    which sends [query] to the store as it is. *)
Theorem interpret_never_raises_and_reads_verbatim
  {JN : JsNumber} {P : Platform} (rawText : value) (st : State) :
  (exists i st', interpret rawText st = (Returned i, st')) /\
  (forall e,
     toString rawText = inl e ->
     fst (interpret rawText st) =
     Returned {| needsQuery := VBool false; query := VUndefined;
                 explanation := VUndefined; response := rawText |}) /\
  (forall written e,
     toString rawText = inr written -> JSON_parse written = inl e ->
     fst (interpret rawText st) =
     Returned {| needsQuery := VBool false; query := VUndefined;
                 explanation := VUndefined; response := rawText |}) /\
  (forall written parsed,
     toString rawText = inr written ->
     JSON_parse written = inr parsed -> readable parsed = false ->
     fst (interpret rawText st) =
     Returned {| needsQuery := VBool false; query := VUndefined;
                 explanation := VUndefined; response := rawText |}) /\
  (forall written parsed,
     toString rawText = inr written ->
     JSON_parse written = inr parsed -> readable parsed = true ->
     fst (interpret rawText st) =
     Returned {| needsQuery := field parsed "needsQuery";
                 query := field parsed "query";
                 explanation := field parsed "explanation";
                 response := field parsed "response" |}) /\
  interpret_and_run (answered st rawText) =
  bind (interpret rawText) run_intent (answered st rawText).
Proof.
  split; [|split; [|split; [|split; [|split]]]].
  - destruct (interpret_cases rawText st) as [i [st' [H _]]]. now exists i, st'.
  - intros e H.
    now rewrite (interpret_throws rawText e st (parse_unwritten rawText e H)).
  - intros written e Hw H. rewrite <- (parse_written rawText written Hw) in H.
    now rewrite (interpret_throws rawText e st H).
  - intros written parsed Hw H Hr. rewrite <- (parse_written rawText written Hw) in H.
    now rewrite (interpret_unreadable rawText parsed st H Hr).
  - intros written parsed Hw H Hr. rewrite <- (parse_written rawText written Hw) in H.
    now rewrite (interpret_readable rawText parsed st H Hr).
  - exact (interpret_and_run_factors (answered st rawText)).
Qed.

Section Interpreting.
#[local] Existing Instance Concrete.integers.
#[local] Existing Instance Concrete.ascii_platform.

(** The text [I don't know] is not JSON; the text [null] is. *)
Lemma interpret_never_raises_and_reads_verbatim_witness :
  fst (interpret (VStr "I don't know") (start Concrete.shop)) =
    Returned (fallback (VStr "I don't know")) /\
  fst (interpret (VStr "null") (start Concrete.shop)) =
    Returned (fallback (VStr "null")) /\
  fst (interpret (VStr Concrete.scenario_E) (start Concrete.shop)) =
    Returned {| needsQuery := VBool true;
                query := VStr Concrete.count_orders;
                explanation := VUndefined;
                response := VStr "here" |}.
Proof.
  split; [|split].
  - destruct (interpret_never_raises_and_reads_verbatim (P := Concrete.ascii_platform)
                (VStr "I don't know") (start Concrete.shop)) as [_ [_ [H _]]].
    exact (H "I don't know" _ eq_refl eq_refl).
  - destruct (interpret_never_raises_and_reads_verbatim (P := Concrete.ascii_platform)
                (VStr "null") (start Concrete.shop)) as [_ [_ [_ [H _]]]].
    exact (H "null" VNull eq_refl eq_refl eq_refl).
  - destruct (interpret_never_raises_and_reads_verbatim (P := Concrete.ascii_platform)
                (VStr Concrete.scenario_E) (start Concrete.shop))
      as [_ [_ [_ [_ [H _]]]]].
    exact (H Concrete.scenario_E
             (VObj [("needsQuery", VBool true);
                    ("query", VStr Concrete.count_orders);
                    ("response", VStr "here")]) eq_refl eq_refl eq_refl).
Defined.

(** C3 as stated fails whichever way its two cases are told apart. If a
    parse succeeds when JSON.parse returns, the text [null] parses and the
    result is the fallback, not what null holds. If a parse succeeds when
    an object comes out, the text [5] fails to parse and the result is not
    the fallback: its [response] is undefined, not the raw text. *)
Lemma interpret_differs_from_both_readings :
  ~ (forall (text : string) (parsed : value),
       Concrete.json_parse text = inr parsed ->
       fst (interpret (VStr text) (start Concrete.shop)) = Returned (as_is parsed))
  /\
  ~ (forall (text : string),
       (forall props, Concrete.json_parse text <> inr (VObj props)) ->
       fst (interpret (VStr text) (start Concrete.shop)) =
       Returned (fallback (VStr text))).
Proof.
  split; intros claim.
  - specialize (claim "null" VNull eq_refl).
    assert (run : fst (interpret (VStr "null") (start Concrete.shop)) =
                  Returned (fallback (VStr "null"))) by reflexivity.
    rewrite run in claim. discriminate claim.
  - assert (H : forall props, Concrete.json_parse "5" <> inr (VObj props)).
    { intros props contra.
      assert (E : Concrete.json_parse "5" = inr (VNum (JN := Concrete.integers) 5%Z))
        by reflexivity.
      rewrite E in contra. discriminate contra. }
    specialize (claim "5" H).
    assert (run : fst (interpret (VStr "5") (start Concrete.shop)) =
                  Returned (as_is (VNum (JN := Concrete.integers) 5%Z))) by reflexivity.
    rewrite run in claim. discriminate claim.
Qed.

End Interpreting.

(** ** The query endpoint *)

(** C4, as the code has it. POST /api/query answers 400 exactly when the
    trimmed query, put in upper case, does not begin with the six letters
    SELECT. Otherwise the query goes to the store as it was written, and
    the answer is 200 with the recordset when the store returns one, and
    500 with the message of the error when connecting or querying fails.
    The traces say it in full, for server.js and for the long-running
    variant. *)
Theorem query_endpoint_by_prefix
  {JN : JsNumber} {P : Platform} (env : Env) (q : string) :
  (forall store,
     trace (snd (ServerJs.api_query env (VStr q) (start store))) =
     if starts_with_SELECT (String_trim q) then
       match connect_outcome env with
       | Some e =>
           [Connect; Log "Database connection failed:"; Log "Query endpoint error:";
            Respond 500 (VObj [("error", VStr (err_message e))])]
       | None =>
           match fst (run_sql store (VStr q)) with
           | inr recordset =>
               ([Connect; Query (VStr q); Respond 200 recordset] ++ closing env)%list
           | inl e =>
               ([Connect; Query (VStr q); Log "Query endpoint error:";
                 Respond 500 (VObj [("error", VStr (err_message e))])]
                ++ closing env)%list
           end
       end
     else [Respond 400 (VObj [("error", VStr "Only SELECT queries are allowed")])])
  /\
  (forall st,
     pool st = true ->
     trace (snd (LongRunning.api_query (VStr q) st)) =
     (trace st ++
      if starts_with_SELECT (String_trim q) then
        match fst (run_sql (db st) (VStr q)) with
        | inr recordset => [Query (VStr q); Respond 200 recordset]
        | inl e => [Query (VStr q);
                    Respond 500 (VObj [("error", VStr (err_message e))])]
        end
      else [Respond 400 (VObj [("error", VStr "Only SELECT queries are allowed")])])%list).
Proof.
  split.
  - intros store.
    unfold ServerJs.api_query, try_finally, try_catch, bind, lift, call_trim, ret.
    destruct (starts_with_SELECT (String_trim q)); simpl; [|reflexivity].
    unfold ServerJs.getDatabaseConnection, sql_connect, try_catch, bind, emit, throw,
      ret, set_pool, pool_query, respond, emit, ServerJs.release, read, pool_close,
      bind, emit, closing.
    simpl. destruct (connect_outcome env); simpl; [reflexivity|].
    destruct (run_sql store (VStr q)) as [[e|rows] db']; simpl;
      destruct (close_outcome env); reflexivity.
  - intros [d p c r t] Hp. simpl in Hp. subst p.
    unfold LongRunning.api_query, try_catch, bind, lift, call_trim, ret.
    destruct (starts_with_SELECT (String_trim q)); simpl; [|reflexivity].
    unfold pool_query, respond, emit. simpl.
    destruct (run_sql d (VStr q)) as [[e|rows] db']; simpl;
      now rewrite <- app_assoc.
Qed.

Section QueryEndpoint.
#[local] Existing Instance Concrete.integers.
#[local] Existing Instance Concrete.ascii_platform.

(** On ASCII text the first word, in upper case, is a prefix of the whole
    text in upper case. *)
Lemma first_word_prefix (t : string) :
  String.prefix (Concrete.toUpperCase (Spec.first_word t)) (Concrete.toUpperCase t) = true.
Proof.
  induction t as [|c t IH]; simpl; [reflexivity|].
  destruct (Spec.is_word_char c); simpl; [|reflexivity].
  destruct (ascii_dec (Concrete.upper c) (Concrete.upper c)); [exact IH|congruence].
Qed.

(** One half of C4 does hold on ASCII text: a query whose first token is
    SELECT passes the check of the endpoint. The other half does not: the
    check also passes every text that merely begins with these letters. *)
Lemma first_token_SELECT_passes_check (q : string) :
  Spec.first_token_is_SELECT q = true ->
  starts_with_SELECT (String_trim q) = true.
Proof.
  unfold Spec.first_token_is_SELECT, Spec.first_token, starts_with_SELECT. simpl.
  intros H. apply String.eqb_eq in H. rewrite <- H. apply first_word_prefix.
Qed.

(** An UPDATE, a SELECT with white space around it, and a SELECT on a table
    that does not exist. *)
Lemma query_endpoint_by_prefix_witness :
  trace (snd (Concrete.server_query Concrete.unanswered (VStr "UPDATE Users SET x=1")))
    = [Respond 400 (VObj [("error", VStr "Only SELECT queries are allowed")])] /\
  trace (snd (Concrete.server_query Concrete.unanswered (VStr "  SELECT * FROM Orders ")))
    = [Connect; Query (VStr "  SELECT * FROM Orders "); Respond 200 (VArr []); Close] /\
  trace (snd (Concrete.long_query Concrete.unanswered (VStr "SELECT * FROM Missing")))
    = [Query (VStr "SELECT * FROM Missing");
       Respond 500 (VObj [("error", VStr "Invalid object name 'Missing'.")])].
Proof.
  split; [|split].
  - destruct (query_endpoint_by_prefix (P := Concrete.ascii_platform)
                Concrete.unanswered "UPDATE Users SET x=1") as [H _].
    exact (H Concrete.shop).
  - destruct (query_endpoint_by_prefix (P := Concrete.ascii_platform)
                Concrete.unanswered "  SELECT * FROM Orders ") as [H _].
    exact (H Concrete.shop).
  - destruct (query_endpoint_by_prefix (P := Concrete.ascii_platform)
                Concrete.unanswered "SELECT * FROM Missing") as [_ H].
    exact (H (LongRunning.booted Concrete.unanswered Concrete.shop) eq_refl).
Defined.

(** C4 as stated fails in both directions. A query whose first token is
    SELECT is answered 500, not 200, when the store rejects it; a query
    whose first token is SELECTED is not answered 400: it passes the check
    and reaches the store. *)
Lemma query_endpoint_not_by_first_token :
  ~ (forall q : string,
       Spec.first_token_is_SELECT q = true ->
       exists rows,
         response_of (trace (snd (Concrete.server_query Concrete.unanswered (VStr q))))
         = Some (200, rows))
  /\
  ~ (forall q : string,
       Spec.first_token_is_SELECT q = false ->
       exists body,
         response_of (trace (snd (Concrete.server_query Concrete.unanswered (VStr q))))
         = Some (400, body)).
Proof.
  split; intros claim.
  - destruct (claim "SELECT * FROM Missing" eq_refl) as [rows H].
    assert (run :
      response_of (trace (snd (Concrete.server_query Concrete.unanswered
                                 (VStr "SELECT * FROM Missing")))) =
      Some (500, VObj [("error", VStr "Invalid object name 'Missing'.")]))
      by reflexivity.
    rewrite run in H. discriminate H.
  - destruct (claim "SELECTED 1" eq_refl) as [body H].
    assert (run :
      commands_of (trace (snd (Concrete.server_query Concrete.unanswered
                                 (VStr "SELECTED 1")))) = [VStr "SELECTED 1"] /\
      response_of (trace (snd (Concrete.server_query Concrete.unanswered
                                 (VStr "SELECTED 1")))) =
      Some (500, VObj [("error", VStr "Incorrect syntax.")]))
      by (split; reflexivity).
    destruct run as [_ run]. rewrite run in H. discriminate H.
Qed.

End QueryEndpoint.

(** ** The connection *)



Section Connection.
#[local] Existing Instance Concrete.integers.
#[local] Existing Instance Concrete.ascii_platform.



End Connection.

(** ** The call to the model service *)

(** C8, as the code has it. The configuration of the call holds three
    headers and no timeout. While the service stays silent the chat request
    of server.js stays pending: it has sent no response and has not closed
    the connection. A call that fails is not told apart from any other
    error of the handler: the answer is 500 with the error text
    [Internal server error] and the message of the error as details. The
    call is made once the prompt is built; when a table name cannot be
    converted to text there is no call, and the answer is the same 500. *)
Theorem model_call_has_no_timeout
  {JN : JsNumber} {P : Platform} (env : Env) (req : ChatRequest) (store : Store)
  (recordset : value) (db' : Store) (names turns : list value) :
  connect_outcome env = None ->
  run_sql store (VStr tables_sql) = (inr recordset, db') ->
  map_TABLE_NAME recordset = inr names ->
  spread (or_empty (conversationHistory req)) = inr turns ->
  timeout (request_config env) = None /\
  (forall prompt,
     systemPrompt names = inr prompt ->
     (upstream env (model_request prompt turns (message req)) = Silent ->
      ServerJs.api_chat env req (start store) =
      (Pending,
       mkState db' true VUndefined VUndefined
         [Connect; Query (VStr tables_sql);
          Post CLAUDE_API_URL (model_request prompt turns (message req))
               (request_config env)])) /\
     (forall e,
        upstream env (model_request prompt turns (message req)) = Refuses e ->
        trace (snd (ServerJs.api_chat env req (start store))) =
        ([Connect; Query (VStr tables_sql);
          Post CLAUDE_API_URL (model_request prompt turns (message req))
               (request_config env);
          Log "Chat endpoint error:";
          Respond 500 (VObj [("error", VStr "Internal server error");
                             ("details", VStr (err_message e))])]
         ++ closing env)%list)) /\
  (forall e,
     systemPrompt names = inl e ->
     trace (snd (ServerJs.api_chat env req (start store))) =
     ([Connect; Query (VStr tables_sql);
       Log "Chat endpoint error:";
       Respond 500 (VObj [("error", VStr "Internal server error");
                          ("details", VStr (err_message e))])]
      ++ closing env)%list).
Proof.
  intros Hc Hcat Hnames Hturns. split; [reflexivity|]. split.
  - intros prompt Hprompt.
    assert (Hprefix : forall up,
      upstream env (model_request prompt turns (message req)) = up ->
      chat_pipeline env (message req) (or_empty (conversationHistory req))
        (ServerJs.connected store) =
      match up with
      | Silent =>
          (Pending,
           mkState db' true VUndefined VUndefined
             [Connect; Query (VStr tables_sql);
              Post CLAUDE_API_URL (model_request prompt turns (message req))
                   (request_config env)])
      | Refuses e =>
          (Thrown e,
           mkState db' true VUndefined VUndefined
             [Connect; Query (VStr tables_sql);
              Post CLAUDE_API_URL (model_request prompt turns (message req))
                   (request_config env)])
      | Answers data =>
          chat_pipeline env (message req) (or_empty (conversationHistory req))
            (ServerJs.connected store)
      end).
    { intros up Hup. destruct up as [data|e|]; [reflexivity| |];
        unfold chat_pipeline, ask_model, bind, pool_query, axios_post, bind, emit,
          ServerJs.connected; simpl; rewrite Hcat, Hnames; simpl; rewrite Hprompt; simpl;
        rewrite Hturns; simpl; rewrite Hup; reflexivity. }
    split.
    + intros Hup. apply (server_chat_pending env req store _ Hc). exact (Hprefix _ Hup).
    + intros e Hup.
      rewrite (server_chat_thrown env req store e _ Hc (Hprefix _ Hup)). reflexivity.
  - intros e Hprompt.
    assert (Hp : chat_pipeline env (message req) (or_empty (conversationHistory req))
                   (ServerJs.connected store) =
                 (Thrown e,
                  mkState db' true VUndefined VUndefined
                    [Connect; Query (VStr tables_sql)])).
    { unfold chat_pipeline, ask_model, bind, pool_query, ServerJs.connected. simpl.
      rewrite Hcat, Hnames. simpl. rewrite Hprompt. reflexivity. }
    rewrite (server_chat_thrown env req store e _ Hc Hp). reflexivity.
Qed.

Section SilentService.
#[local] Existing Instance Concrete.integers.
#[local] Existing Instance Concrete.ascii_platform.

(** The service never answers the request of the examples. *)
Lemma model_call_has_no_timeout_witness :
  fst (Concrete.server_chat Concrete.unanswered Concrete.hello) = Pending /\
  response_of (trace (snd (Concrete.server_chat Concrete.unanswered Concrete.hello)))
    = None /\
  existsb on_connection
    (tl (trace (snd (Concrete.server_chat Concrete.unanswered Concrete.hello))))
    = false.
Proof.
  destruct (model_call_has_no_timeout (P := Concrete.ascii_platform)
              Concrete.unanswered Concrete.hello Concrete.shop
              (VArr [VObj [("TABLE_NAME", VStr "Orders")];
                     VObj [("TABLE_NAME", VStr "Users")]])
              Concrete.shop [VStr "Orders"; VStr "Users"] []
              eq_refl eq_refl eq_refl eq_refl) as [_ [H _]].
  destruct (H (match systemPrompt [VStr "Orders"; VStr "Users"] with
               | inr prompt => prompt
               | inl _ => EmptyString
               end) eq_refl) as [Hsilent _].
  unfold Concrete.server_chat. rewrite (Hsilent eq_refl). repeat split.
Defined.

(** C8 as stated fails: no configuration of the call has a timeout, and a
    chat request whose call is never answered is never over. *)
Lemma model_call_unbounded :
  ~ (forall env : Env, exists ms, timeout (request_config env) = Some ms) /\
  ~ (forall (env : Env) (req : ChatRequest),
       settled (fst (Concrete.server_chat env req)) = true).
Proof.
  split; intros claim.
  - destruct (claim Concrete.unanswered) as [ms H]. discriminate H.
  - specialize (claim Concrete.unanswered Concrete.hello).
    assert (run : fst (Concrete.server_chat Concrete.unanswered Concrete.hello) = Pending)
      by reflexivity.
    rewrite run in claim. discriminate claim.
Qed.

End SilentService.

(** ** What reaches the store *)

Section Unguarded.
#[local] Existing Instance Concrete.integers.
#[local] Existing Instance Concrete.ascii_platform.

(** The policy of the specification on its own scenarios A, B and C. *)
Lemma policy_scenarios :
  Spec.validate "SELECT * FROM Users" = {| Spec.allowed := true; Spec.reason := None |} /\
  Spec.validate "SELECT * FROM Users; DROP TABLE Users" = Spec.reject "multiple statements" /\
  Spec.validate "UPDATE Users SET x=1" = Spec.reject "not a SELECT statement" /\
  Spec.validate "SELECT 1 AS n; " = {| Spec.allowed := true; Spec.reason := None |} /\
  Spec.validate "SELECT * FROM (DELETE FROM Users OUTPUT deleted.id) d"
    = Spec.reject "forbidden keyword" /\
  Spec.validate "   " = Spec.reject "empty query".
Proof. repeat split. Qed.

(** C1 at the failing input. The model proposes [DROP TABLE Users]. The
    policy of the specification rejects it, the check of POST /api/query
    answers it with 400 and sends nothing, and the chat handler of either
    file sends it to the store as it is: the table is gone afterwards.
    The check of POST /api/query itself lets a second statement through
    when the text begins with SELECT. *)
Theorem chat_runs_query_the_policy_rejects :
  Spec.allowed (Spec.validate "DROP TABLE Users") = false /\
  commands_of (trace (snd (Concrete.server_chat (Concrete.answering Concrete.drop_users)
                             Concrete.hello)))
    = [VStr tables_sql; VStr "DROP TABLE Users"] /\
  db (snd (Concrete.server_chat (Concrete.answering Concrete.drop_users) Concrete.hello))
    = ["Orders"] /\
  commands_of (trace (snd (Concrete.long_chat (Concrete.answering Concrete.drop_users)
                             Concrete.hello)))
    = [VStr tables_sql; VStr "DROP TABLE Users"] /\
  trace (snd (Concrete.server_query Concrete.unanswered (VStr "DROP TABLE Users")))
    = [Respond 400 (VObj [("error", VStr "Only SELECT queries are allowed")])] /\
  Spec.allowed (Spec.validate "SELECT * FROM Users; DROP TABLE Users") = false /\
  commands_of (trace (snd (Concrete.server_query Concrete.unanswered
                             (VStr "SELECT * FROM Users; DROP TABLE Users"))))
    = [VStr "SELECT * FROM Users; DROP TABLE Users"].
Proof. repeat split. Qed.

(** C2 at the failing input. The model asks for the rows of a table that
    does not exist and the store rejects the query. The chat handler
    answers 200 with the raw text of the model as [response] and null as
    [queryResult], and prints that the text could not be parsed; the same
    query sent to POST /api/query is answered 500 with the message of the
    store. *)
Theorem store_error_answered_as_success :
  response_of (trace (snd (Concrete.server_chat (Concrete.answering Concrete.select_missing)
                             Concrete.hello)))
    = Some (200, VObj [("response", VStr Concrete.select_missing);
                       ("queryResult", VNull);
                       ("timestamp", VStr "2024-05-01T12:00:00.000Z")]) /\
  commands_of (trace (snd (Concrete.server_chat (Concrete.answering Concrete.select_missing)
                             Concrete.hello)))
    = [VStr tables_sql; VStr "SELECT * FROM Missing"] /\
  existsb (fun e => match e with
                    | Log text => String.eqb text not_json
                    | _ => false
                    end)
    (trace (snd (Concrete.server_chat (Concrete.answering Concrete.select_missing)
                   Concrete.hello))) = true /\
  response_of (trace (snd (Concrete.long_chat (Concrete.answering Concrete.select_missing)
                             Concrete.hello)))
    = Some (200, VObj [("response", VStr Concrete.select_missing);
                       ("queryResult", VNull);
                       ("timestamp", VStr "2024-05-01T12:00:00.000Z")]) /\
  response_of (trace (snd (Concrete.server_query Concrete.unanswered
                             (VStr "SELECT * FROM Missing"))))
    = Some (500, VObj [("error", VStr "Invalid object name 'Missing'.")]).
Proof. repeat split. Qed.

End Unguarded.

(** On every platform: a query the intent asks for is sent as it is, and
    when the store rejects it the answer is a 200 that carries the raw text
    of the model. *)
Lemma rejected_query_answered_200
  {JN : JsNumber} {P : Platform} (env : Env) (req : ChatRequest) (store : Store)
  (text : value) (st1 st2 : State) (i : ModelIntent) (e : Error) (db' : Store) :
  connect_outcome env = None ->
  ask_model env (message req) (or_empty (conversationHistory req))
            (ServerJs.connected store) = (Returned text, st1) ->
  interpret text (answered st1 text) = (Returned i, st2) ->
  requests_query i = true ->
  run_sql (db st1) (query i) = (inl e, db') ->
  exists st',
    ServerJs.api_chat env req (start store) = (Returned tt, st') /\
    response_of (trace st') =
      Some (200, VObj [("response", text);
                       ("queryResult", VNull);
                       ("timestamp", VStr (now env))]) /\
    commands_of (trace st') = [VStr tables_sql; query i].
Proof.
  intros Hc Hask Hint Hq Hrun.
  destruct (server_query_rejected env req store text st1 st2 i Hc Hask Hint
              e db' Hq Hrun) as [st' [H1 [H2 [H3 _]]]].
  exists st'. repeat split; assumption.
Qed.

(** On every platform: whatever the intent gives as [query], once it is
    asked for it is the command the store receives after the catalog
    lookup. Nothing stands between the model's text and the store. *)
Lemma requested_query_reaches_store
  {JN : JsNumber} {P : Platform} (env : Env) (req : ChatRequest) (store : Store)
  (text : value) (st1 st2 : State) (i : ModelIntent) :
  connect_outcome env = None ->
  ask_model env (message req) (or_empty (conversationHistory req))
            (ServerJs.connected store) = (Returned text, st1) ->
  interpret text (answered st1 text) = (Returned i, st2) ->
  requests_query i = true ->
  exists st',
    ServerJs.api_chat env req (start store) = (Returned tt, st') /\
    commands_of (trace st') = [VStr tables_sql; query i].
Proof.
  intros Hc Hask Hint Hq.
  destruct (run_sql (db st1) (query i)) as [[e|rows] db'] eqn:Hrun.
  - destruct (server_query_rejected env req store text st1 st2 i Hc Hask Hint
                e db' Hq Hrun) as [st' [H1 [_ [H3 _]]]].
    now exists st'.
  - destruct (with_results (response i) rows) as [e|composed] eqn:Hw.
    + destruct (server_query_uncomposed env req store text st1 st2 i Hc Hask Hint
                  rows db' e Hq Hrun Hw) as [st' [H1 [_ [H3 _]]]].
      now exists st'.
    + destruct (server_query_answered env req store text st1 st2 i Hc Hask Hint
                  rows db' composed Hq Hrun Hw) as [st' [H1 [_ [H3 _]]]].
      now exists st'.
Qed.
(** ** Further properties of the handlers *)

Section MoreLaws.
Context {JN : JsNumber} {P : Platform}.

Lemma adds_interpret_and_run_with (ok : Event -> bool) :
  (forall c, ok (Query c) = true) -> (forall t, ok (Log t) = true) ->
  adds ok interpret_and_run.
Proof.
  intros Hq Hl. unfold interpret_and_run.
  apply adds_try_catch; [|intros; now apply adds_emit].
  apply adds_bind; [apply adds_read|intros text].
  apply adds_bind; [apply adds_lift|intros parsed].
  apply adds_bind; [apply adds_lift|intros nq].
  apply adds_bind; [destruct (truthy nq); [apply adds_lift|apply adds_ret]|intros wanted].
  destruct (truthy wanted).
  - apply adds_bind; [apply adds_lift|intros q].
    apply adds_bind; [now apply adds_pool_query|intros rs].
    apply adds_bind; [apply adds_set_queryResult|intros _].
    apply adds_bind; [apply adds_lift|intros r].
    apply adds_bind; [apply adds_read|intros qr].
    apply adds_bind; [apply adds_lift|intros composed].
    apply adds_set_claudeMessage.
  - apply adds_bind; [apply adds_lift|intros r]. apply adds_set_claudeMessage.
Qed.

Lemma asking_no_response (e : Event) : asking e = true -> is_response e = false.
Proof. destruct e; simpl; congruence. Qed.

Lemma asking_unanswered (l : list Event) :
  forallb asking l = true -> forallb unanswered_by l = true.
Proof.
  induction l as [|e l IH]; simpl; [reflexivity|].
  intros H. apply andb_prop in H as [He Hl]. rewrite (IH Hl).
  destruct e; simpl in *; try discriminate; reflexivity.
Qed.

(** The pipeline responds last and only when it returns. *)
Lemma pipeline_responses env message history st out st' :
  chat_pipeline env message history st = (out, st') ->
  exists new,
    trace st' = (trace st ++ new)%list /\
    match out with
    | Returned _ =>
        exists before r q,
          new = (before ++ [Respond 200 (chat_body env r q)])%list /\
          forallb unanswered_by before = true
    | _ => forallb unanswered_by new = true
    end.
Proof.
  unfold chat_pipeline. unfold bind at 1.
  destruct (ask_model env message history st) as [[text|e|] st1] eqn:Hask;
    destruct (adds_asking env message history _ _ _ Hask) as [_ [n1 [Ht1 Hn1]]];
    apply asking_unanswered in Hn1.
  2,3: intros H; inversion H; subst; exists n1; now split.
  unfold bind at 1. unfold set_claudeMessage at 1.
  unfold bind at 1. unfold set_queryResult at 1. simpl.
  unfold bind at 1.
  destruct (interpret_and_run _) as [[[]|e|] st2] eqn:Hrun;
    destruct (adds_interpret_and_run_with unanswered_by
                (fun _ => eq_refl) (fun _ => eq_refl) _ _ _ Hrun)
      as [_ [n2 [Ht2 Hn2]]]; simpl in Ht2.
  2,3: intros H; inversion H; subst; exists (n1 ++ n2)%list;
       rewrite Ht2, Ht1, <- app_assoc, forallb_app, Hn1, Hn2; now split.
  unfold bind, read, respond, emit. intros H. inversion H; subst. simpl.
  exists ((n1 ++ n2) ++ [Respond 200 (chat_body env (claudeMessage st2) (queryResult st2))])%list.
  rewrite Ht2, Ht1, <- !app_assoc. split; [reflexivity|].
  exists (n1 ++ n2)%list, (claudeMessage st2), (queryResult st2).
  rewrite <- app_assoc, forallb_app, Hn1, Hn2. now split.
Qed.

Lemma responses_app (l1 l2 : list Event) :
  responses (l1 ++ l2) = (responses l1 ++ responses l2)%list.
Proof. apply filter_app. Qed.

Lemma responses_none (l : list Event) :
  forallb unanswered_by l = true -> responses l = [].
Proof.
  induction l as [|e l IH]; simpl; [reflexivity|].
  intros H. apply andb_prop in H as [He Hl]. unfold unanswered_by in He.
  unfold responses in *. simpl. destruct (is_response e); [discriminate|auto].
Qed.

Lemma responses_closing env : responses (closing env) = [].
Proof. unfold closing. now destruct (close_outcome env). Qed.

(** The responses of a chat request of server.js, case by case. *)
Lemma server_chat_response_cases env req store :
  let run := ServerJs.api_chat env req (start store) in
  (fst run = Returned tt /\
   ((exists r q, responses (trace (snd run)) = [Respond 200 (chat_body env r q)]) \/
    (exists e, responses (trace (snd run)) = [Respond 500 (failure_body e)]))) \/
  (fst run = Pending /\ responses (trace (snd run)) = []).
Proof.
  intros run. subst run.
  destruct (connect_outcome env) as [e|] eqn:Hc.
  - rewrite (server_chat_unconnected env req store e Hc). simpl.
    left. split; [reflexivity|]. right. now exists e.
  - destruct (chat_pipeline env (message req) (or_empty (conversationHistory req))
                (ServerJs.connected store)) as [[[]|e|] st1] eqn:Hp;
      destruct (pipeline_responses env _ _ _ _ _ Hp) as [new [Ht Hnew]];
      simpl in Ht.
    + rewrite (server_chat_returned env req store st1 Hc Hp). simpl.
      left. split; [reflexivity|]. left.
      destruct Hnew as [before [r [q [-> Hb]]]]. exists r, q.
      rewrite Ht.
      change (responses (([Connect] ++ before ++ [Respond 200 (chat_body env r q)])
                           ++ closing env) = [Respond 200 (chat_body env r q)]).
      rewrite !responses_app, (responses_none before Hb), responses_closing.
      reflexivity.
    + rewrite (server_chat_thrown env req store e st1 Hc Hp). simpl.
      left. split; [reflexivity|]. right. exists e.
      rewrite Ht.
      change (responses (([Connect] ++ new)
                           ++ [Log "Chat endpoint error:"; Respond 500 (failure_body e)]
                           ++ closing env) = [Respond 500 (failure_body e)]).
      rewrite !responses_app, (responses_none new Hnew), responses_closing.
      reflexivity.
    + rewrite (server_chat_pending env req store st1 Hc Hp). simpl.
      right. split; [reflexivity|]. rewrite Ht.
      change (responses ([Connect] ++ new) = []).
      now rewrite responses_app, (responses_none new Hnew).
Qed.

(** The responses that a chat request of the long-running variant adds. *)
Lemma long_chat_response_cases env req st :
  let run := LongRunning.api_chat env req st in
  (fst run = Returned tt /\
   ((exists r q,
       responses (trace (snd run)) =
       (responses (trace st) ++ [Respond 200 (chat_body env r q)])%list) \/
    responses (trace (snd run)) =
    (responses (trace st)
       ++ [Respond 500 (VObj [("error", VStr "Internal server error")])])%list)) \/
  (fst run = Pending /\ responses (trace (snd run)) = responses (trace st)).
Proof.
  intros run. subst run.
  destruct (chat_pipeline env (message req) (or_empty (conversationHistory req)) st)
    as [[[]|e|] st1] eqn:Hp;
    destruct (pipeline_responses env _ _ _ _ _ Hp) as [new [Ht Hnew]].
  - rewrite (long_chat_returned env req st st1 Hp). simpl.
    left. split; [reflexivity|]. left.
    destruct Hnew as [before [r [q [-> Hb]]]]. exists r, q.
    rewrite Ht, !responses_app, (responses_none before Hb). reflexivity.
  - rewrite (long_chat_thrown env req e st st1 Hp). simpl.
    left. split; [reflexivity|]. right.
    rewrite Ht, !responses_app, (responses_none new Hnew), app_nil_r. reflexivity.
  - rewrite (long_chat_pending env req st st1 Hp). simpl.
    right. split; [reflexivity|].
    now rewrite Ht, responses_app, (responses_none new Hnew), app_nil_r.
Qed.

(** What [ask_model] sends to the store: the catalog lookup when [pool] is
    set, nothing otherwise. *)
Lemma ask_model_sends env message history st0 out st1 :
  ask_model env message history st0 = (out, st1) ->
  exists new,
    trace st1 = (trace st0 ++ new)%list /\
    commands_of new = if pool st0 then [VStr tables_sql] else [].
Proof.
  unfold ask_model, bind, pool_query, axios_post, bind, emit.
  destruct st0 as [d p c q t]. simpl.
  destruct p.
  2: { intros H. inversion H; subst. exists []. now rewrite app_nil_r. }
  destruct (run_sql d (VStr tables_sql)) as [[e|rs] d'].
  { intros H. inversion H; subst. now exists [Query (VStr tables_sql)]. }
  destruct (map_TABLE_NAME rs) as [e|names]; simpl.
  { intros H. inversion H; subst. now exists [Query (VStr tables_sql)]. }
  destruct (systemPrompt names) as [e|prompt]; simpl.
  { intros H. inversion H; subst. now exists [Query (VStr tables_sql)]. }
  destruct (spread history) as [e|turns]; simpl.
  { intros H. inversion H; subst. now exists [Query (VStr tables_sql)]. }
  destruct (upstream env _) as [data|e|]; simpl.
  - intros H.
    exists [Query (VStr tables_sql);
            Post CLAUDE_API_URL (model_request prompt turns message) (request_config env)].
    destruct (content0_text data); simpl in H; inversion H; subst; simpl;
      now rewrite <- app_assoc.
  - intros H. inversion H; subst. simpl.
    exists [Query (VStr tables_sql);
            Post CLAUDE_API_URL (model_request prompt turns message) (request_config env)].
    now rewrite <- app_assoc.
  - intros H. inversion H; subst. simpl.
    exists [Query (VStr tables_sql);
            Post CLAUDE_API_URL (model_request prompt turns message) (request_config env)].
    now rewrite <- app_assoc.
Qed.

(** The try block of the chat handler of server.js: the connection, then
    the pipeline. *)
Lemma server_attempt env req store :
  (ServerJs.getDatabaseConnection env ;;
   set_pool true ;;
   chat_pipeline env (message req) (or_empty (conversationHistory req))) (start store) =
  match connect_outcome env with
  | None =>
      chat_pipeline env (message req) (or_empty (conversationHistory req))
        (ServerJs.connected store)
  | Some e =>
      (Thrown e, after (start store) [Connect; Log "Database connection failed:"])
  end.
Proof.
  unfold bind at 1. unfold ServerJs.getDatabaseConnection, try_catch, sql_connect.
  unfold bind at 1. unfold emit at 1. cbn [start db pool claudeMessage queryResult trace].
  destruct (connect_outcome env) as [e|]; reflexivity.
Qed.

End MoreLaws.

(** ** The responses of the chat handler *)

(** X1. A chat request that is over has sent exactly one response, with
    status 200 or 500; a chat request that is pending has sent none. This
    holds in server.js from the start of a request and in the long-running
    variant from any state. *)
Theorem chat_responds_exactly_once
  {JN : JsNumber} {P : Platform} (env : Env) (req : ChatRequest) :
  (forall store,
     let run := ServerJs.api_chat env req (start store) in
     if settled (fst run)
     then exists status body,
            responses (trace (snd run)) = [Respond status body] /\
            (status = 200 \/ status = 500)
     else responses (trace (snd run)) = []) /\
  (forall st,
     let run := LongRunning.api_chat env req st in
     if settled (fst run)
     then exists status body,
            responses (trace (snd run)) =
            (responses (trace st) ++ [Respond status body])%list /\
            (status = 200 \/ status = 500)
     else responses (trace (snd run)) = responses (trace st)).
Proof.
  split.
  - intros store run. subst run.
    destruct (server_chat_response_cases env req store)
      as [[-> [[r [q H]]|[e H]]]|[-> H]]; simpl.
    + exists 200, (chat_body env r q). auto.
    + exists 500, (failure_body e). auto.
    + exact H.
  - intros st run. subst run.
    destruct (long_chat_response_cases env req st)
      as [[-> [[r [q H]]|H]]|[-> H]]; simpl.
    + exists 200, (chat_body env r q). auto.
    + exists 500, (VObj [("error", VStr "Internal server error")]). auto.
    + exact H.
Qed.

(** X2. What a 500 of the chat handler tells the caller. In server.js the
    handler answers 500 exactly when its try block throws, and the body
    then carries the message of the very error that was thrown, under
    [details]. In the long-running variant the handler answers 500 exactly
    when the pipeline throws, with a body that is the same for every error
    and carries no message. *)
Theorem chat_failure_bodies
  {JN : JsNumber} {P : Platform} (env : Env) (req : ChatRequest) :
  (forall store,
     let attempt :=
       (ServerJs.getDatabaseConnection env ;;
        set_pool true ;;
        chat_pipeline env (message req) (or_empty (conversationHistory req)))
         (start store) in
     let sent := responses (trace (snd (ServerJs.api_chat env req (start store)))) in
     match fst attempt with
     | Thrown e =>
         sent = [Respond 500 (VObj [("error", VStr "Internal server error");
                                    ("details", VStr (err_message e))])]
     | _ => forall body, ~ In (Respond 500 body) sent
     end) /\
  (forall st,
     responses (trace st) = [] ->
     let sent := responses (trace (snd (LongRunning.api_chat env req st))) in
     match fst (chat_pipeline env (message req) (or_empty (conversationHistory req)) st)
     with
     | Thrown e => sent = [Respond 500 (VObj [("error", VStr "Internal server error")])]
     | _ => forall body, ~ In (Respond 500 body) sent
     end).
Proof.
  split.
  - intros store attempt sent. subst attempt sent.
    rewrite server_attempt.
    destruct (connect_outcome env) as [e|] eqn:Hc.
    + rewrite (server_chat_unconnected env req store e Hc). reflexivity.
    + destruct (chat_pipeline env (message req) (or_empty (conversationHistory req))
                  (ServerJs.connected store)) as [[[]|e|] st1] eqn:Hp;
        destruct (pipeline_responses env _ _ _ _ _ Hp) as [new [Ht Hnew]];
        simpl in Ht; cbn [fst].
      * rewrite (server_chat_returned env req store st1 Hc Hp).
        destruct Hnew as [before [r [q [-> Hb]]]].
        unfold after. cbn [snd trace]. rewrite Ht.
        change (Connect :: before ++ [Respond 200 (chat_body env r q)])%list
          with ([Connect] ++ before ++ [Respond 200 (chat_body env r q)])%list.
        rewrite !responses_app, (responses_none before Hb), responses_closing.
        intros body [H|[]]. discriminate H.
      * rewrite (server_chat_thrown env req store e st1 Hc Hp).
        unfold after. cbn [snd trace]. rewrite Ht.
        change (Connect :: new) with ([Connect] ++ new)%list.
        rewrite !responses_app, (responses_none new Hnew), responses_closing.
        reflexivity.
      * rewrite (server_chat_pending env req store st1 Hc Hp).
        cbn [snd]. rewrite Ht.
        change (Connect :: new) with ([Connect] ++ new)%list.
        rewrite responses_app, (responses_none new Hnew).
        intros body [].
  - intros st Hst sent. subst sent.
    destruct (chat_pipeline env (message req) (or_empty (conversationHistory req)) st)
      as [[[]|e|] st1] eqn:Hp;
      destruct (pipeline_responses env _ _ _ _ _ Hp) as [new [Ht Hnew]]; cbn [fst].
    + rewrite (long_chat_returned env req st st1 Hp).
      destruct Hnew as [before [r [q [-> Hb]]]].
      cbn [snd]. rewrite Ht, !responses_app, Hst, (responses_none before Hb).
      intros body [H|[]]. discriminate H.
    + rewrite (long_chat_thrown env req e st st1 Hp).
      unfold after. cbn [snd trace].
      rewrite Ht, !responses_app, Hst, (responses_none new Hnew). reflexivity.
    + rewrite (long_chat_pending env req st st1 Hp).
      cbn [snd]. rewrite Ht, responses_app, Hst, (responses_none new Hnew).
      intros body [].
Qed.

Section ChatFailures.
#[local] Existing Instance Concrete.integers.
#[local] Existing Instance Concrete.ascii_platform.

(** The model service answers without [content] in server.js: reading its
    first content block throws. The model service rejects the call in the
    long-running variant. *)
Lemma chat_failure_bodies_witness :
  responses (trace (snd (Concrete.server_chat Concrete.malformed Concrete.hello)))
    = [Respond 500
         (VObj [("error", VStr "Internal server error");
                ("details", VStr "Cannot read properties of undefined (reading '0')")])] /\
  responses (trace (snd (Concrete.long_chat Concrete.refusing Concrete.hello)))
    = [Respond 500 (VObj [("error", VStr "Internal server error")])].
Proof.
  destruct (chat_failure_bodies (P := Concrete.ascii_platform)
              Concrete.malformed Concrete.hello) as [Hserver _].
  destruct (chat_failure_bodies (P := Concrete.ascii_platform)
              Concrete.refusing Concrete.hello) as [_ Hlong].
  split.
  - exact (Hserver Concrete.shop).
  - exact (Hlong (LongRunning.booted Concrete.refusing Concrete.shop) eq_refl).
Defined.

End ChatFailures.

(** X3. Once the text of the model is in hand, nothing that follows makes
    the chat request of server.js fail: whatever the text is and whatever
    the store does with a query it asks for, the answer is 200, it carries
    the clock's reading, and the connection is closed. *)
Theorem model_text_means_200
  {JN : JsNumber} {P : Platform} (env : Env) (req : ChatRequest) (store : Store)
  (text : value) (st1 : State) :
  connect_outcome env = None ->
  ask_model env (message req) (or_empty (conversationHistory req))
            (ServerJs.connected store) = (Returned text, st1) ->
  exists st' r q,
    ServerJs.api_chat env req (start store) = (Returned tt, st') /\
    response_of (trace st') =
      Some (200, VObj [("response", r); ("queryResult", q);
                       ("timestamp", VStr (now env))]) /\
    In Close (trace st').
Proof.
  intros Hc Hask.
  destruct (interpret_cases text (answered st1 text)) as [i [st2 [Hint _]]].
  assert (Hclose : forall st', ServerJs.api_chat env req (start store) = (Returned tt, st') ->
                               In Close (trace st')).
  { intros st' Hrun.
    destruct (chat_pipeline env (message req) (or_empty (conversationHistory req))
                (ServerJs.connected store)) as [[[]|e|] s1] eqn:Hp.
    - rewrite (server_chat_returned env req store s1 Hc Hp) in Hrun.
      inversion Hrun; subst. simpl. apply in_or_app. right.
      unfold closing. destruct (close_outcome env); simpl; auto.
    - rewrite (server_chat_thrown env req store e s1 Hc Hp) in Hrun.
      inversion Hrun; subst. simpl. apply in_or_app. right. simpl. right. right.
      unfold closing. destruct (close_outcome env); simpl; auto.
    - rewrite (server_chat_pending env req store s1 Hc Hp) in Hrun. discriminate Hrun. }
  destruct (requests_query i) eqn:Hq.
  - destruct (run_sql (db st1) (query i)) as [[e|rows] db'] eqn:Hrun.
    + destruct (server_query_rejected env req store text st1 st2 i Hc Hask Hint
                  e db' Hq Hrun) as [st' [H1 [H2 _]]].
      exists st', text, VNull. repeat split; auto.
    + destruct (with_results (response i) rows) as [e|composed] eqn:Hw.
      * destruct (server_query_uncomposed env req store text st1 st2 i Hc Hask Hint
                    rows db' e Hq Hrun Hw) as [st' [H1 [H2 _]]].
        exists st', text, rows. repeat split; auto.
      * destruct (server_query_answered env req store text st1 st2 i Hc Hask Hint
                    rows db' composed Hq Hrun Hw) as [st' [H1 [H2 _]]].
        exists st', (VStr composed), rows. repeat split; auto.
  - destruct (server_no_query env req store text st1 st2 i Hc Hask Hint Hq)
      as [st' [H1 [H2 _]]].
    exists st', (response i), VNull. repeat split; auto.
Qed.

Section TruncatedJson.
#[local] Existing Instance Concrete.integers.
#[local] Existing Instance Concrete.ascii_platform.

(** The model answers with JSON that breaks off. *)
Lemma model_text_means_200_witness :
  exists st' r q,
    Concrete.server_chat (Concrete.answering "{") Concrete.hello = (Returned tt, st') /\
    response_of (trace st') =
      Some (200, VObj [("response", r); ("queryResult", q);
                       ("timestamp", VStr "2024-05-01T12:00:00.000Z")]) /\
    In Close (trace st').
Proof.
  apply (model_text_means_200 (P := Concrete.ascii_platform)
           (Concrete.answering "{") Concrete.hello Concrete.shop (VStr "{")
           (snd (ask_model (Concrete.answering "{") (message Concrete.hello)
                   (or_empty (conversationHistory Concrete.hello))
                   (ServerJs.connected Concrete.shop))));
    reflexivity.
Defined.

End TruncatedJson.

(** X4. When anything throws before the text of the model is in hand (the
    catalog lookup, reading the table names, joining them into the prompt,
    spreading the history, the call to the model service, reading the
    first content block), the chat
    request of server.js answers 500 with the message of that error as
    details, closes the connection, and the store has received nothing
    but the catalog lookup. *)
Theorem failure_before_model_text
  {JN : JsNumber} {P : Platform} (env : Env) (req : ChatRequest) (store : Store)
  (e : Error) (st1 : State) :
  connect_outcome env = None ->
  ask_model env (message req) (or_empty (conversationHistory req))
            (ServerJs.connected store) = (Thrown e, st1) ->
  exists st',
    ServerJs.api_chat env req (start store) = (Returned tt, st') /\
    trace st' =
      (trace st1 ++ [Log "Chat endpoint error:";
                     Respond 500 (VObj [("error", VStr "Internal server error");
                                        ("details", VStr (err_message e))])]
                 ++ closing env)%list /\
    response_of (trace st') =
      Some (500, VObj [("error", VStr "Internal server error");
                       ("details", VStr (err_message e))]) /\
    commands_of (trace st') = [VStr tables_sql].
Proof.
  intros Hc Hask.
  assert (Hp : chat_pipeline env (message req) (or_empty (conversationHistory req))
                 (ServerJs.connected store) = (Thrown e, st1)).
  { unfold chat_pipeline. unfold bind at 1. now rewrite Hask. }
  eexists. split; [exact (server_chat_thrown env req store e st1 Hc Hp)|].
  destruct (ask_model_sends env _ _ _ _ _ Hask) as [new [Ht Hnew]].
  destruct (adds_asking env _ _ _ _ _ Hask) as [_ [new' [Ht' Hasking]]].
  rewrite Ht in Ht'. apply app_inv_head in Ht'. subst new'.
  destruct (closing_holds_nothing env) as [Hr Hcl].
  simpl in *. split; [reflexivity|]. rewrite Ht. split.
  - rewrite !response_of_app. simpl.
    now rewrite (no_response asking new asking_no_response Hasking).
  - rewrite !commands_of_app. simpl. rewrite Hnew, Hcl. reflexivity.
Qed.

Section MalformedAnswer.
#[local] Existing Instance Concrete.integers.
#[local] Existing Instance Concrete.ascii_platform.

(** The model service answers 2xx with a body that has no [content]. *)
Lemma failure_before_model_text_witness :
  exists st',
    Concrete.server_chat Concrete.malformed Concrete.hello = (Returned tt, st') /\
    trace st' =
      (trace (snd (ask_model Concrete.malformed (message Concrete.hello)
                     (or_empty (conversationHistory Concrete.hello))
                     (ServerJs.connected Concrete.shop)))
         ++ [Log "Chat endpoint error:";
             Respond 500
               (VObj [("error", VStr "Internal server error");
                      ("details",
                       VStr "Cannot read properties of undefined (reading '0')")])]
         ++ [Close])%list /\
    response_of (trace st') =
      Some (500,
            VObj [("error", VStr "Internal server error");
                  ("details", VStr "Cannot read properties of undefined (reading '0')")]) /\
    commands_of (trace st') = [VStr tables_sql].
Proof.
  apply (failure_before_model_text (P := Concrete.ascii_platform)
           Concrete.malformed Concrete.hello Concrete.shop
           (mkError TypeError "Cannot read properties of undefined (reading '0')")
           (snd (ask_model Concrete.malformed (message Concrete.hello)
                   (or_empty (conversationHistory Concrete.hello))
                   (ServerJs.connected Concrete.shop))));
    reflexivity.
Defined.

End MalformedAnswer.

(** ** The tables endpoint *)

Section TablesLaws.
Context {JN : JsNumber} {P : Platform}.





End TablesLaws.


Section ListingTables.
#[local] Existing Instance Concrete.integers.
#[local] Existing Instance Concrete.ascii_platform.


End ListingTables.

(** ** What the model service is sent *)

Section PostLaws.
Context {JN : JsNumber} {P : Platform}.

Lemma posts_of_app (l1 l2 : list Event) :
  posts_of (l1 ++ l2) = (posts_of l1 ++ posts_of l2)%list.
Proof.
  induction l1 as [|e l1 IH]; simpl; [reflexivity|].
  destruct e; simpl; now rewrite ?IH.
Qed.

Lemma posts_none (l : list Event) : forallb not_post l = true -> posts_of l = [].
Proof.
  induction l as [|e l IH]; simpl; [reflexivity|].
  intros H. apply andb_prop in H as [He Hl].
  destruct e; simpl in *; try discriminate; auto.
Qed.

Lemma not_post_closing env : forallb not_post (closing env) = true.
Proof. unfold closing. now destruct (close_outcome env). Qed.

(** After [ask_model], the pipeline sends nothing more to the model
    service. *)
Lemma pipeline_posts env message history st out st' :
  chat_pipeline env message history st = (out, st') ->
  exists o1 s1 rest,
    ask_model env message history st = (o1, s1) /\
    trace st' = (trace s1 ++ rest)%list /\
    forallb not_post rest = true.
Proof.
  unfold chat_pipeline. unfold bind at 1.
  destruct (ask_model env message history st) as [[text|e|] st1] eqn:Hask.
  2,3: intros H; inversion H; subst; eexists _, _, []; rewrite app_nil_r; now repeat split.
  unfold bind at 1. unfold set_claudeMessage at 1.
  unfold bind at 1. unfold set_queryResult at 1. simpl.
  unfold bind at 1.
  destruct (interpret_and_run _) as [[[]|e|] st2] eqn:Hrun;
    destruct (adds_interpret_and_run_with not_post
                (fun _ => eq_refl) (fun _ => eq_refl) _ _ _ Hrun)
      as [_ [n2 [Ht2 Hn2]]]; simpl in Ht2.
  2,3: intros H; inversion H; subst; eexists _, _, n2; now repeat split.
  unfold bind, read, respond, emit. intros H. inversion H; subst. simpl.
  eexists _, _, (n2 ++ [Respond 200 _])%list. split; [reflexivity|].
  rewrite Ht2, <- app_assoc. split; [reflexivity|].
  now rewrite forallb_app, Hn2.
Qed.

Lemma server_chat_posts env req store :
  connect_outcome env = None ->
  posts_of (trace (snd (ServerJs.api_chat env req (start store)))) =
  posts_of (trace (snd (ask_model env (message req) (or_empty (conversationHistory req))
                          (ServerJs.connected store)))).
Proof.
  intros Hc.
  destruct (chat_pipeline env (message req) (or_empty (conversationHistory req))
              (ServerJs.connected store)) as [[[]|e|] st1] eqn:Hp;
    destruct (pipeline_posts env _ _ _ _ _ Hp) as [o1 [s1 [rest [Hask [Ht Hrest]]]]];
    rewrite Hask; cbn [snd].
  - rewrite (server_chat_returned env req store st1 Hc Hp).
    unfold after. cbn [snd trace].
    rewrite Ht, !posts_of_app, (posts_none rest Hrest),
      (posts_none _ (not_post_closing env)).
    now rewrite !app_nil_r.
  - rewrite (server_chat_thrown env req store e st1 Hc Hp).
    unfold after. cbn [snd trace].
    rewrite Ht, !posts_of_app, (posts_none rest Hrest),
      (posts_none _ (not_post_closing env)).
    simpl. now rewrite !app_nil_r.
  - rewrite (server_chat_pending env req store st1 Hc Hp). cbn [snd].
    rewrite Ht, !posts_of_app, (posts_none rest Hrest).
    now rewrite !app_nil_r.
Qed.

Lemma ask_model_posts env message history store recordset db' names prompt turns :
  run_sql store (VStr tables_sql) = (inr recordset, db') ->
  map_TABLE_NAME recordset = inr names ->
  systemPrompt names = inr prompt ->
  spread history = inr turns ->
  trace (snd (ask_model env message history (ServerJs.connected store))) =
  [Connect; Query (VStr tables_sql);
   Post CLAUDE_API_URL (model_request prompt turns message) (request_config env)].
Proof.
  intros Hrun Hnames Hprompt Hturns.
  unfold ask_model, bind, pool_query, axios_post, bind, emit, ServerJs.connected.
  simpl. rewrite Hrun, Hnames. simpl. rewrite Hprompt. simpl. rewrite Hturns. simpl.
  destruct (upstream env _) as [data|e|]; simpl; [|reflexivity|reflexivity].
  destruct (content0_text data); reflexivity.
Qed.

Lemma ask_model_unspreadable env message history store recordset db' names prompt e :
  run_sql store (VStr tables_sql) = (inr recordset, db') ->
  map_TABLE_NAME recordset = inr names ->
  systemPrompt names = inr prompt ->
  spread history = inl e ->
  ask_model env message history (ServerJs.connected store) =
  (Thrown e, mkState db' true VUndefined VUndefined [Connect; Query (VStr tables_sql)]).
Proof.
  intros Hrun Hnames Hprompt Hturns.
  unfold ask_model, bind, pool_query, ServerJs.connected.
  simpl. rewrite Hrun, Hnames. simpl. rewrite Hprompt. simpl. now rewrite Hturns.
Qed.

Lemma ask_model_unwritable env message history store recordset db' names e :
  run_sql store (VStr tables_sql) = (inr recordset, db') ->
  map_TABLE_NAME recordset = inr names ->
  systemPrompt names = inl e ->
  ask_model env message history (ServerJs.connected store) =
  (Thrown e, mkState db' true VUndefined VUndefined [Connect; Query (VStr tables_sql)]).
Proof.
  intros Hrun Hnames Hprompt.
  unfold ask_model, bind, pool_query, ServerJs.connected.
  simpl. rewrite Hrun, Hnames. simpl. now rewrite Hprompt.
Qed.


End PostLaws.


Section PromptTables.
#[local] Existing Instance Concrete.integers.
#[local] Existing Instance Concrete.ascii_platform.


End PromptTables.

(** X7. The turns of [conversationHistory] go to the model as they are and
    in their order, between the system message and the user's message; a
    request without [conversationHistory] sends the two messages alone.
    When [conversationHistory] is null, a boolean, a number or an object,
    the chat request of server.js sends nothing to the model and answers
    500; so it does when the names of the tables cannot be joined into
    the prompt. *)
Theorem history_sent_in_order
  {JN : JsNumber} {P : Platform} (env : Env) (req : ChatRequest) (store : Store)
  (recordset : value) (db' : Store) (names : list value) :
  connect_outcome env = None ->
  run_sql store (VStr tables_sql) = (inr recordset, db') ->
  map_TABLE_NAME recordset = inr names ->
  (forall prompt,
     systemPrompt names = inr prompt ->
     (forall turns,
        conversationHistory req = VArr turns ->
        exists sent,
          posts_of (trace (snd (ServerJs.api_chat env req (start store)))) = [sent] /\
          messages sent =
            ([VObj [("role", VStr "system"); ("content", VStr prompt)]]
             ++ turns
             ++ [VObj [("role", VStr "user"); ("content", message req)]])%list) /\
     (conversationHistory req = VUndefined ->
      exists sent,
        posts_of (trace (snd (ServerJs.api_chat env req (start store)))) = [sent] /\
        messages sent =
          [VObj [("role", VStr "system"); ("content", VStr prompt)];
           VObj [("role", VStr "user"); ("content", message req)]])) /\
  (match conversationHistory req with
   | VNull | VBool _ | VNum _ | VObj _ => True
   | _ => False
   end ->
   posts_of (trace (snd (ServerJs.api_chat env req (start store)))) = [] /\
   exists body,
     response_of (trace (snd (ServerJs.api_chat env req (start store))))
       = Some (500, body)) /\
  (forall e,
     systemPrompt names = inl e ->
     posts_of (trace (snd (ServerJs.api_chat env req (start store)))) = [] /\
     response_of (trace (snd (ServerJs.api_chat env req (start store))))
       = Some (500, VObj [("error", VStr "Internal server error");
                          ("details", VStr (err_message e))])).
Proof.
  intros Hc Hrun Hnames.
  assert (Hfails : forall e,
    ask_model env (message req) (or_empty (conversationHistory req))
      (ServerJs.connected store) =
    (Thrown e, mkState db' true VUndefined VUndefined [Connect; Query (VStr tables_sql)]) ->
    posts_of (trace (snd (ServerJs.api_chat env req (start store)))) = [] /\
    response_of (trace (snd (ServerJs.api_chat env req (start store))))
      = Some (500, VObj [("error", VStr "Internal server error");
                         ("details", VStr (err_message e))])).
  { intros e Hask. split.
    - rewrite (server_chat_posts env req store Hc), Hask. reflexivity.
    - assert (Hp : chat_pipeline env (message req) (or_empty (conversationHistory req))
                     (ServerJs.connected store) =
                   (Thrown e,
                    mkState db' true VUndefined VUndefined
                      [Connect; Query (VStr tables_sql)])).
      { unfold chat_pipeline. unfold bind at 1. rewrite Hask. reflexivity. }
      rewrite (server_chat_thrown env req store _ _ Hc Hp). reflexivity. }
  split; [|split].
  - intros prompt Hprompt. split.
    + intros turns Hh. exists (model_request prompt turns (message req)).
      rewrite (server_chat_posts env req store Hc),
        (ask_model_posts env _ _ store recordset db' names prompt turns Hrun Hnames Hprompt);
        [split; reflexivity|]. now rewrite Hh.
    + intros Hh. exists (model_request prompt [] (message req)).
      rewrite (server_chat_posts env req store Hc),
        (ask_model_posts env _ _ store recordset db' names prompt [] Hrun Hnames Hprompt);
        [split; reflexivity|]. now rewrite Hh.
  - intros Hkind.
    assert (Hs : exists e, spread (or_empty (conversationHistory req)) = inl e).
    { destruct (conversationHistory req); try contradiction; simpl; eexists; reflexivity. }
    destruct Hs as [e Hs].
    destruct (systemPrompt names) as [e'|prompt] eqn:Hprompt.
    + destruct (Hfails e' (ask_model_unwritable env (message req) _ store recordset db'
                             names e' Hrun Hnames Hprompt)) as [H1 H2].
      split; [exact H1|]. eexists. exact H2.
    + destruct (Hfails e (ask_model_unspreadable env (message req) _ store recordset db'
                            names prompt e Hrun Hnames Hprompt Hs)) as [H1 H2].
      split; [exact H1|]. eexists. exact H2.
  - intros e Hprompt.
    exact (Hfails e (ask_model_unwritable env (message req) _ store recordset db'
                       names e Hrun Hnames Hprompt)).
Qed.

Section History.
#[local] Existing Instance Concrete.integers.
#[local] Existing Instance Concrete.ascii_platform.

(** A request with two earlier turns, and a request whose history is
    null. *)
Lemma history_sent_in_order_witness :
  (exists sent prompt,
     systemPrompt [VStr "Orders"; VStr "Users"] = inr prompt /\
     posts_of (trace (snd (Concrete.server_chat (Concrete.answering Concrete.scenario_E)
                             Concrete.follow_up))) = [sent] /\
     messages sent =
       ([VObj [("role", VStr "system"); ("content", VStr prompt)]]
        ++ Concrete.earlier
        ++ [VObj [("role", VStr "user"); ("content", VStr "How many orders are there?")]])%list)
  /\
  (posts_of (trace (snd (Concrete.server_chat (Concrete.answering Concrete.scenario_E)
                           Concrete.bad_history))) = [] /\
   exists body,
     response_of (trace (snd (Concrete.server_chat (Concrete.answering Concrete.scenario_E)
                                Concrete.bad_history))) = Some (500, body)).
Proof.
  split.
  - destruct (history_sent_in_order (P := Concrete.ascii_platform)
                (Concrete.answering Concrete.scenario_E) Concrete.follow_up Concrete.shop
                (VArr [VObj [("TABLE_NAME", VStr "Orders")];
                       VObj [("TABLE_NAME", VStr "Users")]])
                Concrete.shop [VStr "Orders"; VStr "Users"]
                eq_refl eq_refl eq_refl) as [H _].
    destruct (H (match systemPrompt [VStr "Orders"; VStr "Users"] with
                 | inr prompt => prompt
                 | inl _ => EmptyString
                 end) eq_refl) as [Hturns _].
    destruct (Hturns Concrete.earlier eq_refl) as [sent [Hposts Hmessages]].
    exists sent. eexists. split; [reflexivity|]. split; [exact Hposts|exact Hmessages].
  - destruct (history_sent_in_order (P := Concrete.ascii_platform)
                (Concrete.answering Concrete.scenario_E) Concrete.bad_history Concrete.shop
                (VArr [VObj [("TABLE_NAME", VStr "Orders")];
                       VObj [("TABLE_NAME", VStr "Users")]])
                Concrete.shop [VStr "Orders"; VStr "Users"]
                eq_refl eq_refl eq_refl) as [_ [H _]].
    exact (H I).
Defined.

End History.

(** ** The long-running variant when the start-up connection fails *)

(** X8. [connectToDatabase] never throws. When the connection fails it
    leaves [pool] undefined, and nothing connects again: every chat
    request is then answered 500 without a command to the store or a call
    to the model, the tables endpoint and a query that passes the SELECT
    check are answered 500 with the message of the TypeError, and a query
    that does not pass the check is still answered 400. *)
Theorem failed_startup_fails_every_request
  {JN : JsNumber} {P : Platform} (env : Env) (store : Store) (e : Error) :
  connect_outcome env = Some e ->
  fst (LongRunning.connectToDatabase env (start store)) = Returned tt /\
  pool (LongRunning.booted env store) = false /\
  (forall req,
     LongRunning.api_chat env req (LongRunning.booted env store) =
     (Returned tt,
      mkState store false VUndefined VUndefined
        [Log "Chat endpoint error:";
         Respond 500 (VObj [("error", VStr "Internal server error")])])) /\
  trace (snd (LongRunning.api_tables (LongRunning.booted env store))) =
    [Respond 500
       (VObj [("error",
               VStr "Cannot read properties of undefined (reading 'request')")])] /\
  (forall q : string,
     trace (snd (LongRunning.api_query (VStr q) (LongRunning.booted env store))) =
     if starts_with_SELECT (String_trim q)
     then [Respond 500
             (VObj [("error",
                     VStr "Cannot read properties of undefined (reading 'request')")])]
     else [Respond 400 (VObj [("error", VStr "Only SELECT queries are allowed")])]).
Proof.
  intros Hc.
  assert (Hboot : LongRunning.booted env store
                  = mkState store false VUndefined VUndefined []).
  { unfold LongRunning.booted, LongRunning.connectToDatabase, try_catch, bind,
      sql_connect, bind, emit, start. simpl. rewrite Hc. reflexivity. }
  split; [|split; [|split; [|split]]].
  - unfold LongRunning.connectToDatabase, try_catch, bind, sql_connect, bind, emit, start.
    simpl. rewrite Hc. reflexivity.
  - now rewrite Hboot.
  - intros req. rewrite Hboot. reflexivity.
  - rewrite Hboot. reflexivity.
  - intros q. rewrite Hboot.
    unfold LongRunning.api_query, try_catch, bind, lift, call_trim, ret.
    destruct (starts_with_SELECT (String_trim q)); reflexivity.
Qed.

Section FailedStartup.
#[local] Existing Instance Concrete.integers.
#[local] Existing Instance Concrete.ascii_platform.

(** The store cannot be reached when the process starts. *)
Lemma failed_startup_fails_every_request_witness :
  Concrete.long_chat Concrete.unreachable Concrete.hello =
  (Returned tt,
   mkState Concrete.shop false VUndefined VUndefined
     [Log "Chat endpoint error:";
      Respond 500 (VObj [("error", VStr "Internal server error")])]).
Proof.
  destruct (failed_startup_fails_every_request (P := Concrete.ascii_platform)
              Concrete.unreachable Concrete.shop
              (mkError ConnectionError "Failed to connect to db:1433") eq_refl)
    as [_ [_ [H _]]].
  exact (H Concrete.hello).
Defined.

End FailedStartup.

(** ** A body without a query *)


Section EmptyBody.
#[local] Existing Instance Concrete.integers.
#[local] Existing Instance Concrete.ascii_platform.


End EmptyBody.

(** ** Closing the connection *)

Section ClosingLaws.
Context {JN : JsNumber} {P : Platform}.

Lemma pipeline_ignores_close env outcome message history :
  chat_pipeline (closing_with env outcome) message history =
  chat_pipeline env message history.
Proof. reflexivity. Qed.

Lemma release_returns env st :
  exists logs,
    ServerJs.release env st = (Returned tt, after st logs) /\
    responses logs = [] /\ commands_of logs = [].
Proof.
  destruct st as [d p c q t].
  unfold ServerJs.release, bind, read, try_catch, pool_close, bind, emit, after.
  simpl. destruct p; simpl.
  - destruct (close_outcome env); simpl.
    + exists [Close; Log "Error closing pool:"]. rewrite <- app_assoc. now repeat split.
    + exists [Close]. now repeat split.
  - exists []. rewrite app_nil_r. now repeat split.
Qed.

End ClosingLaws.

(** X10. The finally block of server.js never throws: an error of
    [pool.close()] is printed and goes no further. Whether closing
    succeeds or fails, a chat request ends the same way, with the same
    responses, the same commands sent and the same store. *)
Theorem close_failure_changes_nothing
  {JN : JsNumber} {P : Platform} (env : Env) (outcome : option Error)
  (req : ChatRequest) (store : Store) :
  (forall st, fst (ServerJs.release env st) = Returned tt) /\
  fst (ServerJs.api_chat (closing_with env outcome) req (start store)) =
    fst (ServerJs.api_chat env req (start store)) /\
  responses (trace (snd (ServerJs.api_chat (closing_with env outcome) req (start store)))) =
    responses (trace (snd (ServerJs.api_chat env req (start store)))) /\
  commands_of (trace (snd (ServerJs.api_chat (closing_with env outcome) req (start store)))) =
    commands_of (trace (snd (ServerJs.api_chat env req (start store)))) /\
  db (snd (ServerJs.api_chat (closing_with env outcome) req (start store))) =
    db (snd (ServerJs.api_chat env req (start store))).
Proof.
  split.
  { intros st. destruct (release_returns env st) as [logs [-> _]]. reflexivity. }
  destruct (connect_outcome env) as [e|] eqn:Hc.
  - rewrite (server_chat_unconnected (closing_with env outcome) req store e Hc),
      (server_chat_unconnected env req store e Hc). now repeat split.
  - assert (Hc' : connect_outcome (closing_with env outcome) = None) by exact Hc.
    destruct (chat_pipeline env (message req) (or_empty (conversationHistory req))
                (ServerJs.connected store)) as [[[]|e|] st1] eqn:Hp.
    + rewrite (server_chat_returned (closing_with env outcome) req store st1 Hc' Hp),
        (server_chat_returned env req store st1 Hc Hp).
      unfold after. cbn [fst snd trace db].
      rewrite !responses_app, !commands_of_app, !responses_closing.
      destruct (closing_holds_nothing env) as [_ ->].
      destruct (closing_holds_nothing (closing_with env outcome)) as [_ ->].
      now repeat split.
    + rewrite (server_chat_thrown (closing_with env outcome) req store e st1 Hc' Hp),
        (server_chat_thrown env req store e st1 Hc Hp).
      unfold after. cbn [fst snd trace db].
      rewrite !responses_app, !commands_of_app, !responses_closing.
      destruct (closing_holds_nothing env) as [_ ->].
      destruct (closing_holds_nothing (closing_with env outcome)) as [_ ->].
      now repeat split.
    + rewrite (server_chat_pending (closing_with env outcome) req store st1 Hc' Hp),
        (server_chat_pending env req store st1 Hc Hp).
      now repeat split.
Qed.

(** ** The SELECT check on ASCII text *)

(** A text that passes the check reaches the store as it is. *)
Lemma server_query_sends_text
  {JN : JsNumber} {P : Platform} (env : Env) (q : string) (store : Store) :
  starts_with_SELECT (String_trim q) = true ->
  connect_outcome env = None ->
  commands_of (trace (snd (ServerJs.api_query env (VStr q) (start store)))) = [VStr q].
Proof.
  intros Hcheck Hc.
  unfold ServerJs.api_query, try_finally, try_catch, bind, lift, call_trim, ret.
  rewrite Hcheck. simpl.
  unfold ServerJs.getDatabaseConnection, sql_connect, try_catch, bind, emit, throw,
    ret, set_pool, pool_query, respond, emit, ServerJs.release, read, pool_close,
    bind, emit.
  simpl. rewrite Hc. simpl.
  destruct (run_sql store (VStr q)) as [[e|rows] db'];
    simpl; destruct (close_outcome env); reflexivity.
Qed.

Section CheckLaws.
#[local] Existing Instance Concrete.integers.
#[local] Existing Instance Concrete.ascii_platform.

Lemma space_not_letter (c : ascii) : Concrete.is_space c = true -> Concrete.upper c = c.
Proof.
  unfold Concrete.is_space, Concrete.upper.
  destruct (Nat.leb_spec 97 (nat_of_ascii c)); simpl; [|reflexivity].
  destruct (Nat.leb_spec 9 (nat_of_ascii c)); simpl;
    destruct (Nat.leb_spec (nat_of_ascii c) 13); simpl; try lia;
    destruct (Nat.eqb_spec (nat_of_ascii c) 32); try lia; discriminate.
Qed.

Lemma trim_start_blank (pad rest : string) :
  blank pad = true -> Concrete.trim_start (pad ++ rest) = Concrete.trim_start rest.
Proof.
  induction pad as [|c pad IH]; simpl; [reflexivity|].
  intros H. apply andb_prop in H as [Hc Hpad]. now rewrite Hc, IH.
Qed.

Lemma trim_end_keeps (c : ascii) (t : string) :
  Concrete.is_space c = false ->
  Concrete.trim_end (String c t) = String c (Concrete.trim_end t).
Proof. intros H. simpl. rewrite H. now destruct (Concrete.trim_end t). Qed.

Lemma toUpperCase_app (s t : string) :
  Concrete.toUpperCase (s ++ t) = Concrete.toUpperCase s ++ Concrete.toUpperCase t.
Proof. induction s as [|c s IH]; simpl; [reflexivity|now rewrite IH]. Qed.

Lemma prefix_empty (t : string) : String.prefix EmptyString t = true.
Proof. now destruct t. Qed.

(** Trailing white space plays no part in a prefix test against text
    without white space. *)
Lemma prefix_upper_trim_end (p t : string) :
  spaceless p = true ->
  String.prefix p (Concrete.toUpperCase (Concrete.trim_end t)) =
  String.prefix p (Concrete.toUpperCase t).
Proof.
  revert p. induction t as [|c t IH]; intros p Hp; [reflexivity|].
  destruct p as [|a p]; [now rewrite !prefix_empty|].
  simpl in Hp. apply andb_prop in Hp as [Ha Hp]. apply negb_true_iff in Ha.
  destruct (Concrete.is_space c) eqn:Hc.
  - assert (Hne : a <> Concrete.upper c).
    { rewrite (space_not_letter c Hc). intros ->. congruence. }
    simpl. rewrite Hc.
    destruct (Concrete.trim_end t); simpl;
      destruct (ascii_dec a (Concrete.upper c)); try contradiction; reflexivity.
  - rewrite (trim_end_keeps c t Hc). simpl.
    destruct (ascii_dec a (Concrete.upper c)); [apply IH; exact Hp|reflexivity].
Qed.

Lemma prefix_app (p t : string) : String.prefix p (p ++ t) = true.
Proof.
  induction p as [|a p IH]; simpl; [apply prefix_empty|].
  destruct (ascii_dec a a); [exact IH|contradiction].
Qed.

Lemma upper_S_not_space (c : ascii) (rest : string) (text : string) :
  Concrete.toUpperCase (String c rest) = text ->
  spaceless text = true -> Concrete.is_space c = false.
Proof.
  intros <- H. simpl in H. apply andb_prop in H as [H _]. apply negb_true_iff in H.
  destruct (Concrete.is_space c) eqn:Hc; [|reflexivity].
  now rewrite (space_not_letter c Hc), Hc in H.
Qed.

Lemma check_passes (pad head tail : string) :
  blank pad = true ->
  Concrete.toUpperCase head = "SELECT" ->
  starts_with_SELECT (String_trim (pad ++ head ++ tail)) = true.
Proof.
  intros Hpad Hhead. unfold starts_with_SELECT. simpl String_trim. simpl String_toUpperCase.
  unfold Concrete.trim. rewrite (trim_start_blank pad _ Hpad).
  destruct head as [|c head]; [discriminate Hhead|].
  assert (Hc : Concrete.is_space c = false)
    by exact (upper_S_not_space c head "SELECT" Hhead eq_refl).
  change ((String c head) ++ tail) with (String c (head ++ tail)).
  cbn [Concrete.trim_start]. rewrite Hc.
  rewrite (prefix_upper_trim_end "SELECT" _ eq_refl).
  change (String c (head ++ tail)) with ((String c head) ++ tail).
  rewrite toUpperCase_app, Hhead. apply prefix_app.
Qed.

(** X11. On ASCII text the check of POST /api/query looks at six letters
    and at nothing else: a query made of white space, then the letters
    SELECT in any mix of upper and lower case, then any text at all passes
    the check, and server.js sends it to the store exactly as it was
    written, white space and tail included. *)
Theorem select_prefix_admits_any_tail
  (env : Env) (store : Store) (pad head tail : string) :
  connect_outcome env = None ->
  blank pad = true ->
  Concrete.toUpperCase head = "SELECT" ->
  starts_with_SELECT (Concrete.trim (pad ++ head ++ tail)) = true /\
  commands_of
    (trace (snd (ServerJs.api_query env (VStr (pad ++ head ++ tail)) (start store))))
    = [VStr (pad ++ head ++ tail)].
Proof.
  intros Hc Hpad Hhead.
  pose proof (check_passes pad head tail Hpad Hhead) as Hcheck.
  split; [exact Hcheck|].
  exact (server_query_sends_text env (pad ++ head ++ tail) store Hcheck Hc).
Qed.

(** Two blanks, the word in lower case, and a second statement. *)
Lemma select_prefix_admits_any_tail_witness :
  starts_with_SELECT (Concrete.trim ("  " ++ "select" ++ " 1; DROP TABLE Users")) = true /\
  commands_of
    (trace (snd (Concrete.server_query Concrete.unanswered
                   (VStr ("  " ++ "select" ++ " 1; DROP TABLE Users")))))
    = [VStr ("  " ++ "select" ++ " 1; DROP TABLE Users")].
Proof.
  apply (select_prefix_admits_any_tail Concrete.unanswered Concrete.shop
           "  " "select" " 1; DROP TABLE Users");
    reflexivity.
Defined.

End CheckLaws.

(** ** The origins of the cors middleware *)

Lemma split_comma_first (s : string) : exists first others, split_comma s = first :: others.
Proof.
  induction s as [|c s [first [others IH]]]; simpl.
  - now exists EmptyString, [].
  - destruct (Ascii.eqb c ","); [now eexists _, _|].
    rewrite IH. now eexists _, _.
Qed.

Lemma join_split_comma (s : string) : join "," (split_comma s) = s.
Proof.
  induction s as [|c s IH]; simpl; [reflexivity|].
  destruct (split_comma_first s) as [first [others Hs]]. rewrite Hs in *.
  destruct (Ascii.eqb_spec c ",") as [->|_].
  - change (join "," (EmptyString :: first :: others))
      with (EmptyString ++ "," ++ join "," (first :: others)).
    now rewrite IH.
  - destruct others as [|o os].
    + simpl in IH. now subst first.
    + change (join "," (String c first :: o :: os))
        with (String c (first ++ "," ++ join "," (o :: os))).
      change (join "," (first :: o :: os))
        with (first ++ "," ++ join "," (o :: os)) in IH.
      now rewrite IH.
Qed.

Lemma split_comma_free (s : string) : forallb comma_free (split_comma s) = true.
Proof.
  induction s as [|c s IH]; simpl; [reflexivity|].
  destruct (Ascii.eqb c ",") eqn:Hc; simpl; [exact IH|].
  destruct (split_comma_first s) as [first [others Hs]]. rewrite Hs in *.
  simpl in *. now rewrite Hc.
Qed.

(** X12. The cors middleware of server.js accepts every origin when
    ALLOWED_ORIGINS is not set or is empty. Otherwise it accepts the parts
    of the variable between commas, taken as they are: there is at least
    one part, no part holds a comma, and the parts joined by commas give
    the variable back, so white space around a part belongs to the
    origin. *)
Theorem cors_origin_parts (s : string) :
  cors_origin None = inl "*" /\
  cors_origin (Some EmptyString) = inl "*" /\
  (s <> EmptyString ->
   exists first others,
     cors_origin (Some s) = inr (first :: others) /\
     join "," (first :: others) = s /\
     forallb comma_free (first :: others) = true).
Proof.
  split; [reflexivity|split; [reflexivity|]].
  intros Hs. destruct (split_comma_first s) as [first [others Hsplit]].
  exists first, others. split; [|split].
  - destruct s; [contradiction|]. simpl. unfold cors_origin. now rewrite <- Hsplit.
  - rewrite <- Hsplit. apply join_split_comma.
  - rewrite <- Hsplit. apply split_comma_free.
Qed.

(** Two origins written with a blank after the comma. *)
Lemma cors_origin_parts_witness :
  exists first others,
    cors_origin (Some "https://a.example, https://b.example") = inr (first :: others) /\
    join "," (first :: others) = "https://a.example, https://b.example" /\
    forallb comma_free (first :: others) = true.
Proof.
  destruct (cors_origin_parts "https://a.example, https://b.example") as [_ [_ H]].
  apply H. discriminate.
Defined.

(** ** The tables endpoint of the long-running variant *)


Section LongTables.
#[local] Existing Instance Concrete.integers.
#[local] Existing Instance Concrete.ascii_platform.


End LongTables.

(** ** No retries *)

Section CountingLaws.
Context {JN : JsNumber} {P : Platform}.

Lemma interpret_and_run_sends st out st' :
  interpret_and_run st = (out, st') ->
  exists new,
    trace st' = (trace st ++ new)%list /\
    List.length (commands_of new) <= 1 /\ posts_of new = [].
Proof.
  rewrite interpret_and_run_factors. unfold bind at 1.
  destruct (interpret_cases (claudeMessage st) st) as [i [s1 [Hint Hs1]]].
  rewrite Hint.
  assert (Hlogs : exists logs, s1 = after st logs /\ commands_of logs = [] /\ posts_of logs = []).
  { destruct Hs1 as [->| ->].
    - exists []. unfold after. rewrite app_nil_r. now destruct st.
    - now exists [Log not_json]. }
  destruct Hlogs as [logs [-> [Hlc Hlp]]].
  unfold run_intent. destruct (requests_query i).
  - unfold try_catch, bind, pool_query, set_queryResult, set_claudeMessage, emit, after.
    simpl. destruct (pool st).
    + destruct (run_sql (db st) (query i)) as [[e|rows] db']; simpl.
      * intros H; inversion H; subst; simpl.
        exists (logs ++ [Query (query i); Log not_json])%list.
        rewrite <- !app_assoc, commands_of_app, posts_of_app, Hlc, Hlp. simpl.
        split; [reflexivity|]. split; [lia|reflexivity].
      * destruct (with_results (response i) rows) as [e|composed]; simpl;
          intros H; inversion H; subst; simpl.
        -- exists (logs ++ [Query (query i); Log not_json])%list.
           rewrite <- !app_assoc, commands_of_app, posts_of_app, Hlc, Hlp. simpl.
           split; [reflexivity|]. split; [lia|reflexivity].
        -- exists (logs ++ [Query (query i)])%list.
           rewrite <- !app_assoc, commands_of_app, posts_of_app, Hlc, Hlp. simpl.
           split; [reflexivity|]. split; [lia|reflexivity].
    + intros H. inversion H; subst; simpl.
      exists (logs ++ [Log not_json])%list.
      rewrite <- !app_assoc, commands_of_app, posts_of_app, Hlc, Hlp. simpl.
      split; [reflexivity|]. split; [lia|reflexivity].
  - unfold set_claudeMessage, after. simpl. intros H. inversion H; subst; simpl.
    exists logs. rewrite Hlc, Hlp. split; [reflexivity|]. split; [simpl; lia|reflexivity].
Qed.

Lemma ask_model_posts_once env message history st0 out st1 :
  ask_model env message history st0 = (out, st1) ->
  exists new,
    trace st1 = (trace st0 ++ new)%list /\
    List.length (commands_of new) <= 1 /\ List.length (posts_of new) <= 1 /\
    (forall c, In c (commands_of new) -> c = VStr tables_sql).
Proof.
  unfold ask_model, bind, pool_query, axios_post, bind, emit.
  destruct st0 as [d p c q t]. simpl.
  destruct p.
  2: { intros H. inversion H; subst. exists []. rewrite app_nil_r. simpl.
       repeat split; try lia; try (intros c0 H0; destruct H0). }
  assert (Hone : forall c0, In c0 [VStr tables_sql] -> c0 = VStr tables_sql).
  { intros c0 [H|[]]. now subst. }
  destruct (run_sql d (VStr tables_sql)) as [[e|rs] d'].
  { intros H. inversion H; subst. exists [Query (VStr tables_sql)]. simpl.
    repeat split; try lia. exact Hone. }
  destruct (map_TABLE_NAME rs) as [e|names]; simpl.
  { intros H. inversion H; subst. exists [Query (VStr tables_sql)]. simpl.
    repeat split; try lia. exact Hone. }
  destruct (systemPrompt names) as [e|prompt]; simpl.
  { intros H. inversion H; subst. exists [Query (VStr tables_sql)]. simpl.
    repeat split; try lia. exact Hone. }
  destruct (spread history) as [e|turns]; simpl.
  { intros H. inversion H; subst. exists [Query (VStr tables_sql)]. simpl.
    repeat split; try lia. exact Hone. }
  intros H.
  exists [Query (VStr tables_sql);
          Post CLAUDE_API_URL (model_request prompt turns message) (request_config env)].
  simpl. split; [|repeat split; try lia; exact Hone].
  destruct (upstream env _) as [data|e|]; simpl in H.
  - destruct (content0_text data); simpl in H; inversion H; subst; simpl;
      now rewrite <- app_assoc.
  - inversion H; subst. simpl. now rewrite <- app_assoc.
  - inversion H; subst. simpl. now rewrite <- app_assoc.
Qed.

Lemma pipeline_sends env message history st out st' :
  chat_pipeline env message history st = (out, st') ->
  exists new,
    trace st' = (trace st ++ new)%list /\
    List.length (commands_of new) <= 2 /\ List.length (posts_of new) <= 1 /\
    hd_error (commands_of new) = (if pool st then Some (VStr tables_sql) else None).
Proof.
  unfold chat_pipeline. unfold bind at 1.
  destruct (ask_model env message history st) as [[text|e|] st1] eqn:Hask;
    destruct (ask_model_posts_once env _ _ _ _ _ Hask) as [n1 [Ht1 [Hc1 [Hp1 _]]]];
    destruct (ask_model_sends env _ _ _ _ _ Hask) as [n1' [Ht1' Hn1']];
    rewrite Ht1 in Ht1'; apply app_inv_head in Ht1'; subst n1'.
  2,3: intros H; inversion H; subst; exists n1; repeat split; try lia; try assumption;
       rewrite Hn1'; now destruct (pool st).
  assert (Hpool : pool st = true).
  { destruct (ask_model_returns _ _ _ _ _ _ Hask) as [Hp _].
    destruct (adds_asking env _ _ _ _ _ Hask) as [Hsame _]. congruence. }
  rewrite Hpool in *.
  unfold bind at 1. unfold set_claudeMessage at 1.
  unfold bind at 1. unfold set_queryResult at 1. simpl.
  unfold bind at 1.
  destruct (interpret_and_run _) as [[[]|e|] st2] eqn:Hrun;
    destruct (interpret_and_run_sends _ _ _ Hrun) as [n2 [Ht2 [Hc2 Hp2]]];
    simpl in Ht2.
  2,3: intros H; inversion H; subst; exists (n1 ++ n2)%list;
       rewrite Ht2, Ht1, <- app_assoc, commands_of_app, posts_of_app, !length_app, Hp2;
       simpl; repeat split; try lia;
       now rewrite Hn1'.
  unfold bind, read, respond, emit. intros H. inversion H; subst. simpl.
  exists ((n1 ++ n2) ++ [Respond 200 (chat_body env (claudeMessage st2) (queryResult st2))])%list.
  rewrite Ht2, Ht1, <- !app_assoc, !commands_of_app, !posts_of_app, !length_app, Hp2.
  simpl. rewrite !app_nil_r. repeat split; try lia.
  now rewrite Hn1'.
Qed.

End CountingLaws.

(** X14. No retries. A chat request of server.js connects once, sends the
    model service at most one request and the store at most two commands,
    the first of which, when the connection was opened, is the catalog
    lookup. *)
Theorem chat_never_retries
  {JN : JsNumber} {P : Platform} (env : Env) (req : ChatRequest) (store : Store) :
  let events := trace (snd (ServerJs.api_chat env req (start store))) in
  List.length (filter (fun e => match e with Connect => true | _ => false end) events) = 1 /\
  List.length (posts_of events) <= 1 /\
  List.length (commands_of events) <= 2 /\
  (connect_outcome env = None -> hd_error (commands_of events) = Some (VStr tables_sql)) /\
  (connect_outcome env <> None -> commands_of events = []).
Proof.
  intros events. subst events.
  destruct (connect_outcome env) as [e|] eqn:Hc.
  - rewrite (server_chat_unconnected env req store e Hc). simpl.
    repeat split; try lia. intros H. discriminate H.
  - destruct (chat_pipeline env (message req) (or_empty (conversationHistory req))
                (ServerJs.connected store)) as [[[]|e|] st1] eqn:Hp;
      destruct (pipeline_sends env _ _ _ _ _ Hp) as [new [Ht [Hcm [Hps Hhd]]]];
      destruct (adds_chat_pipeline env _ _ _ _ _ Hp) as [_ [new' [Ht' Hq]]];
      rewrite Ht in Ht'; apply app_inv_head in Ht'; subst new';
      simpl in Ht, Hhd;
      destruct (closing_holds_nothing env) as [_ Hcl];
      pose proof (posts_none _ (not_post_closing env)) as Hpl;
      assert (Hconn : filter (fun e => match e with Connect => true | _ => false end) new = []).
    1,3,5: (clear - Hq; induction new as [|ev new IH]; [reflexivity|];
            simpl in Hq; apply andb_prop in Hq as [Hev Hq];
            destruct ev; simpl in *; try discriminate; auto).
    + rewrite (server_chat_returned env req store st1 Hc Hp).
      unfold after. cbn [snd trace]. rewrite Ht.
      change (Connect :: new) with ([Connect] ++ new)%list.
      rewrite !filter_app, !posts_of_app, !commands_of_app, Hconn, Hcl, Hpl, !app_nil_r.
      simpl.
      repeat split; try lia; try assumption; try (intros H; now elim H);
        unfold closing; now destruct (close_outcome env).
    + rewrite (server_chat_thrown env req store e st1 Hc Hp).
      unfold after. cbn [snd trace]. rewrite Ht.
      change (Connect :: new) with ([Connect] ++ new)%list.
      rewrite !filter_app, !posts_of_app, !commands_of_app, Hconn, Hcl, Hpl.
      simpl. rewrite !app_nil_r.
      repeat split; try lia; try assumption; try (intros H; now elim H);
        unfold closing; now destruct (close_outcome env).
    + rewrite (server_chat_pending env req store st1 Hc Hp).
      cbn [snd]. rewrite Ht.
      change (Connect :: new) with ([Connect] ++ new)%list.
      rewrite !filter_app, !posts_of_app, !commands_of_app, Hconn.
      simpl.
      repeat split; try lia; try assumption; intros H; now elim H.
Qed.
